(** * Binary type I/O of the PostgreSQL driver: [postgresql/types/io/lib.py]

    A shallow embedding of the pack/unpack routines of
    [postgresql.types.io.lib] and the properties their description states.

    Python values are modelled as follows:
    - [bytes] objects are lists of [Byte.byte];
    - [int] objects are [Z];
    - [float] objects are the binary64 values of [PrimFloat.float];
    - a raised exception is the [Raise] case of [result];
    - a generator is modelled by what consuming it produces: the list of the
      yielded values and the way the iteration ended. *)

From Stdlib Require Import ZArith List Lia Bool.
From Stdlib Require Import Strings.Byte Strings.Ascii Strings.String.
From Stdlib Require Import DecimalString Decimal.
From Stdlib Require Import PrimFloat SpecFloat FloatOps.
Import ListNotations.

Local Open Scope Z_scope.

(** ** The Python run time the module relies on *)

Module Py.

(** The exceptions the module can raise, by class.  [ValueError] carries the
    message when the module builds it itself. *)
Inductive exn : Type :=
| StructError
| TypeError
| OverflowError
| ValueError (msg : string).

Inductive result (A : Type) : Type :=
| Ok (a : A)
| Raise (e : exn).

Arguments Ok {A} a.
Arguments Raise {A} e.

Definition bind {A B : Type} (r : result A) (k : A -> result B) : result B :=
  match r with
  | Ok a => k a
  | Raise e => Raise e
  end.

(** [[f(x) for x in xs]]: the elements are evaluated from left to right and
    the first exception stops the evaluation. *)
Fixpoint map_result {A B : Type} (f : A -> result B) (xs : list A)
  : result (list B) :=
  match xs with
  | [] => Ok []
  | x :: xs' =>
      bind (f x) (fun y => bind (map_result f xs') (fun ys => Ok (y :: ys)))
  end.

Definition bytes : Type := list byte.

Definition len {A : Type} (l : list A) : Z := Z.of_nat (List.length l).

Definition Z_of_byte (b : byte) : Z := Z.of_N (Byte.to_N b).

Definition byte_of_Z (z : Z) : byte :=
  match Byte.of_N (Z.to_N z) with
  | Some b => b
  | None => "000"%byte
  end.

Fixpoint bytes_eqb (a b : bytes) : bool :=
  match a, b with
  | [], [] => true
  | x :: a', y :: b' => Byte.eqb x y && bytes_eqb a' b'
  | _, _ => false
  end.

(** The index adjustment of a slice with step 1: a negative index counts
    from the end, and the result is clipped to [0 .. length]. *)
Definition adjust_index (n i : Z) : Z :=
  if i <? 0 then Z.max (i + n) 0 else Z.min i n.

(** [data[lo:hi]] *)
Definition slice {A : Type} (data : list A) (lo hi : Z) : list A :=
  let start := adjust_index (len data) lo in
  let stop := adjust_index (len data) hi in
  firstn (Z.to_nat (stop - start)) (skipn (Z.to_nat start) data).

(** [data[lo:]] *)
Definition slice_from {A : Type} (data : list A) (lo : Z) : list A :=
  skipn (Z.to_nat (adjust_index (len data) lo)) data.

(** [data[:hi]] *)
Definition slice_to {A : Type} (data : list A) (hi : Z) : list A :=
  firstn (Z.to_nat (adjust_index (len data) hi)) data.

(** The two string types.  Python 3 keeps them apart: a [str] is never
    accepted where a [bytes] object is expected. *)
Inductive strobj : Type :=
| Bytes (b : bytes)
| Str (s : string).

(** [b.ljust(width, fillchar)] for a [bytes] object [b]: the fill argument
    is checked first and must be a [bytes] object of length 1. *)
Definition bytes_ljust (b : bytes) (width : Z) (fillchar : strobj)
  : result bytes :=
  match fillchar with
  | Bytes [c] => Ok (b ++ repeat c (Z.to_nat (width - len b)))
  | _ => Raise TypeError
  end.

(** How the consumption of a generator ends: its body returns, or raises. *)
Inductive ending : Type :=
| Finished
| Raised (e : exn).

(** One resumption of a generator whose state between two [yield]s is [S]. *)
Inductive step (S A : Type) : Type :=
| Stop
| Yield (a : A) (s : S)
| Throw (e : exn).

Arguments Stop {S A}.
Arguments Yield {S A} a s.
Arguments Throw {S A} e.

(** [list(g)] limited to [fuel] resumptions: the values yielded so far, and
    the ending when it was reached. *)
Fixpoint consume {S A : Type} (next : S -> step S A) (fuel : nat) (s : S)
  : list A * option ending :=
  match fuel with
  | O => ([], None)
  | Datatypes.S fuel' =>
      match next s with
      | Stop => ([], Some Finished)
      | Throw e => ([], Some (Raised e))
      | Yield a s' =>
          let (ys, r) := consume next fuel' s' in (a :: ys, r)
      end
  end.

(** [bytes(ints)] for a sequence of [int]: every element must be in
    [range(0, 256)]. *)
Definition bytes_of_ints (ints : list Z) : result bytes :=
  map_result
    (fun z => if (0 <=? z) && (z <? 256) then Ok (byte_of_Z z)
              else Raise (ValueError "bytes must be in range(0, 256)"))
    ints.

(** [str(n)] and ["%d" % n] for an [int]. *)
Definition decimal (n : Z) : string := NilZero.string_of_int (Z.to_int n).

End Py.

Import Py.

Declare Scope py_scope.
Delimit Scope py_scope with py.
Notation "x <- c ;; k" := (bind c (fun x => k))
  (at level 61, c at next level, right associativity) : py_scope.
Notation "' p <- c ;; k" := (bind c (fun x => let p := x in k))
  (at level 61, p pattern, c at next level, right associativity) : py_scope.
Local Open Scope py_scope.

(** ** The [struct] module: big-endian, fixed-width fields

    Every format the module uses starts with ["!"]: network byte order,
    standard sizes, no alignment. *)

Module Struct.

(** The [n] low-order bytes of [z], most significant first.  For a negative
    [z] this is its two's complement, since [/] and [mod] round down. *)
Fixpoint be_bytes (n : nat) (z : Z) : bytes :=
  match n with
  | O => []
  | S n' => byte_of_Z ((z / 2 ^ (8 * Z.of_nat n')) mod 256) :: be_bytes n' z
  end.

(** The unsigned value of a big-endian byte string. *)
Definition be_value (b : bytes) : Z :=
  fold_left (fun acc x => acc * 256 + Z_of_byte x) b 0.

(** An integer format character, by signedness and size in bytes: the
    module packs its counts and lengths as [l] (32 bits, signed) and its type
    identifiers as [L] (32 bits, unsigned). *)
Record int_format : Type := { signed : bool; width : nat }.

Definition fmt_l : int_format := {| signed := true; width := 4 |}.
Definition fmt_L : int_format := {| signed := false; width := 4 |}.

Definition bits (f : int_format) : Z := 8 * Z.of_nat (width f).

Definition min_value (f : int_format) : Z :=
  if signed f then - 2 ^ (bits f - 1) else 0.

Definition max_value (f : int_format) : Z :=
  if signed f then 2 ^ (bits f - 1) - 1 else 2 ^ bits f - 1.

Definition in_range (f : int_format) (v : Z) : bool :=
  (min_value f <=? v) && (v <=? max_value f).

(** Packing one integer: a value outside the range of the format is a
    [struct.error]. *)
Definition pack_int (f : int_format) (v : Z) : result bytes :=
  if in_range f v then Ok (be_bytes (width f) v) else Raise StructError.

(** Reading one integer from exactly [width f] bytes. *)
Definition decode_int (f : int_format) (b : bytes) : Z :=
  let u := be_value b in
  if signed f && (2 ^ (bits f - 1) <=? u) then u - 2 ^ bits f else u.

(** [struct.unpack_from] for one integer at the start of [b]: the buffer
    must hold at least [width f] bytes. *)
Definition unpack_int (f : int_format) (b : bytes) : result Z :=
  if len b <? Z.of_nat (width f) then Raise StructError
  else Ok (decode_int f (firstn (width f) b)).

(** [struct.pack("!%dX" % len(seq), *seq)] for an integer format [X]. *)
Definition pack_ints (f : int_format) (seq : list Z) : result bytes :=
  bs <- map_result (pack_int f) seq ;;
  Ok (List.concat bs).

(** Reading [n] consecutive integers of format [f] from the start of [b],
    which holds enough bytes. *)
Fixpoint decode_ints (f : int_format) (n : nat) (b : bytes) : list Z :=
  match n with
  | O => []
  | S n' => decode_int f (firstn (width f) b)
            :: decode_ints f n' (skipn (width f) b)
  end.

(** [struct.unpack_from("!%dX" % n, data, offset)] for a non-negative
    [offset]: the buffer must hold [n] fields from [offset] on.  A negative
    count makes a format string ["!-2l"], which [struct] refuses. *)
Definition unpack_from_ints (f : int_format) (n : Z) (data : bytes) (offset : Z)
  : result (list Z) :=
  if n <? 0 then Raise StructError
  else if len data - offset <? n * Z.of_nat (width f) then Raise StructError
  else Ok (decode_ints f (Z.to_nat n) (skipn (Z.to_nat offset) data)).

Definition fmt_h : int_format := {| signed := true; width := 2 |}.
Definition fmt_q : int_format := {| signed := true; width := 8 |}.

(** [struct.unpack("!%dx%dX" % (pad, n), data)]: [pad] bytes are skipped and
    [n] integers read; the buffer must have exactly the size of the format,
    and a negative count is refused. *)
Definition unpack_padded_ints (pad : nat) (f : int_format) (n : Z)
    (data : bytes) : result (list Z) :=
  if n <? 0 then Raise StructError
  else if negb (len data =? Z.of_nat pad + n * Z.of_nat (width f)) then
    Raise StructError
  else Ok (decode_ints f (Z.to_nat n) (skipn pad data)).

End Struct.

(** ** Python [float]: binary64 *)

Module Float.

Local Open Scope float_scope.

(** [float(n)] for an [int]: the nearest binary64 value, ties to even;
    [OverflowError] when that is not finite. *)
Definition of_int (n : Z) : result float :=
  let f := SF2Prim (binary_normalize prec emax n 0%Z false) in
  if is_infinity f then Raise OverflowError else Ok f.

Definition signed_mantissa (s : bool) (m : positive) : Z :=
  if s then Z.neg m else Z.pos m.

(** [math.floor(x)] *)
Definition floor (x : float) : result Z :=
  match Prim2SF x with
  | S754_zero _ => Ok 0%Z
  | S754_infinity _ => Raise OverflowError
  | S754_nan => Raise (ValueError "cannot convert float NaN to integer")
  | S754_finite s m e =>
      let v := signed_mantissa s m in
      Ok (if (0 <=? e)%Z then (v * 2 ^ e)%Z else (v / 2 ^ (- e))%Z)
  end.

(** [int(x)]: rounds toward zero. *)
Definition to_int (x : float) : result Z :=
  match Prim2SF x with
  | S754_zero _ => Ok 0%Z
  | S754_infinity _ => Raise OverflowError
  | S754_nan => Raise (ValueError "cannot convert float NaN to integer")
  | S754_finite s m e =>
      let v := signed_mantissa s m in
      Ok (if (0 <=? e)%Z then (v * 2 ^ e)%Z else Z.quot v (2 ^ (- e)))
  end.

(** The binary64 interchange encoding as a 64-bit unsigned integer.  The
    one NaN of [PrimFloat] is given the quiet NaN with an empty payload. *)
Definition to_bits (x : float) : Z :=
  let sign (s : bool) : Z := if s then (2 ^ 63)%Z else 0%Z in
  match Prim2SF x with
  | S754_zero s => sign s
  | S754_infinity s => (sign s + 2047 * 2 ^ 52)%Z
  | S754_nan => (2047 * 2 ^ 52 + 2 ^ 51)%Z
  | S754_finite s m e =>
      if (Z.pos m <? 2 ^ 52)%Z then (sign s + Z.pos m)%Z
      else (sign s + (e + 1075) * 2 ^ 52 + (Z.pos m - 2 ^ 52))%Z
  end.

Definition of_bits (u : Z) : float :=
  let s := (2 ^ 63 <=? u)%Z in
  let biased := ((u / 2 ^ 52) mod 2048)%Z in
  let frac := (u mod 2 ^ 52)%Z in
  if (biased =? 0)%Z then
    match frac with
    | Z.pos m => SF2Prim (S754_finite s m (-1074))
    | _ => SF2Prim (S754_zero s)
    end
  else if (biased =? 2047)%Z then
    if (frac =? 0)%Z then SF2Prim (S754_infinity s) else SF2Prim S754_nan
  else
    match (frac + 2 ^ 52)%Z with
    | Z.pos m => SF2Prim (S754_finite s m (biased - 1075))
    | _ => SF2Prim (S754_zero s)
    end.

(** The format character [d]. *)
Definition pack_double (x : float) : bytes := Struct.be_bytes 8 (to_bits x).

Definition decode_double (b : bytes) : float := of_bits (Struct.be_value b).

End Float.

(** ** [postgresql.python.structlib] *)

Module Structlib.

Import Struct.

(** Modelled from the spec: [postgresql/python/structlib.py] is not part of
    the sources at hand.  [long_pack] is the 32-bit signed big-endian
    encoder (["!l"]); a value out of range is a [struct.error]. *)
Definition long_pack (v : Z) : result bytes := pack_int fmt_l v.

(** Modelled from the spec: the decoder of ["!l"], absent from the sources;
    it reads the four bytes at the start of the buffer. *)
Definition long_unpack (b : bytes) : result Z := unpack_int fmt_l b.

(** Modelled from the spec: the 32-bit unsigned big-endian encoder
    (["!L"]), absent from the sources. *)
Definition ulong_pack (v : Z) : result bytes := pack_int fmt_L v.

(** Modelled from the spec: the decoder of ["!L"], absent from the
    sources. *)
Definition ulong_unpack (b : bytes) : result Z := unpack_int fmt_L b.

(** Modelled from the spec: the encoder of the pair format ["!dl"], absent
    from the sources: a double, then a 32-bit signed integer. *)
Definition dl_pack (x : float * Z) : result bytes :=
  let '(d, l) := x in
  lb <- pack_int fmt_l l ;;
  Ok (Float.pack_double d ++ lb).

(** Modelled from the spec: the decoder of ["!dl"], absent from the
    sources; it reads the twelve bytes at the start of the buffer. *)
Definition dl_unpack (b : bytes) : result (float * Z) :=
  if len b <? 12 then Raise StructError
  else Ok (Float.decode_double (firstn 8 b),
           decode_int fmt_l (firstn 4 (skipn 8 b))).

(** Modelled from the spec: the decoder of ["!llL"], absent from the
    sources; it reads the fixed 12-byte header at the start of the
    buffer. *)
Definition llL_unpack (b : bytes) : result (Z * Z * Z) :=
  if len b <? 12 then Raise StructError
  else Ok (decode_int fmt_l (firstn 4 b),
           decode_int fmt_l (firstn 4 (skipn 4 b)),
           decode_int fmt_L (firstn 4 (skipn 8 b))).

(** Modelled from the spec: the encoder of the array header format
    ["!llL"], absent from the sources. *)
Definition llL_pack (x : Z * Z * Z) : result bytes :=
  let '(a, b, c) := x in
  ab <- pack_int fmt_l a ;;
  bb <- pack_int fmt_l b ;;
  cb <- pack_int fmt_L c ;;
  Ok (ab ++ bb ++ cb).

(** Modelled from the spec: the encoder of four shorts (["!hhhh"]), absent
    from the sources; it is called with one sequence, which must have four
    elements. *)
Definition hhhh_pack (y : list Z) : result bytes :=
  if negb (len y =? 4) then Raise StructError else pack_ints fmt_h y.

(** Modelled from the spec: the decoder of ["!hhhh"], absent from the
    sources; it reads the eight bytes at the start of the buffer. *)
Definition hhhh_unpack (b : bytes) : result (list Z) :=
  if len b <? 8 then Raise StructError else Ok (decode_ints fmt_h 4 b).

(** Modelled from the spec: the encoder of ["!ql"], absent from the sources:
    a 64-bit signed integer, then a 32-bit signed integer. *)
Definition ql_pack (x : Z * Z) : result bytes :=
  let '(q, l) := x in
  qb <- pack_int fmt_q q ;;
  lb <- pack_int fmt_l l ;;
  Ok (qb ++ lb).

(** Modelled from the spec: the decoder of ["!ql"], absent from the sources;
    it reads the twelve bytes at the start of the buffer. *)
Definition ql_unpack (b : bytes) : result (Z * Z) :=
  if len b <? 12 then Raise StructError
  else Ok (decode_int fmt_q (firstn 8 b),
           decode_int fmt_l (firstn 4 (skipn 8 b))).

(** Modelled from the spec: the encoder of ["!qll"], absent from the
    sources. *)
Definition qll_pack (x : Z * Z * Z) : result bytes :=
  let '(q, l1, l2) := x in
  qb <- pack_int fmt_q q ;;
  l1b <- pack_int fmt_l l1 ;;
  l2b <- pack_int fmt_l l2 ;;
  Ok (qb ++ l1b ++ l2b).

(** Modelled from the spec: the decoder of ["!qll"], absent from the
    sources; it reads the sixteen bytes at the start of the buffer. *)
Definition qll_unpack (b : bytes) : result (Z * Z * Z) :=
  if len b <? 16 then Raise StructError
  else Ok (decode_int fmt_q (firstn 8 b),
           decode_int fmt_l (firstn 4 (skipn 8 b)),
           decode_int fmt_l (firstn 4 (skipn 12 b))).

End Structlib.

Import Structlib.

(** ** [postgresql.types.io.lib] *)

Definition oid_pack := ulong_pack.
Definition oid_unpack := ulong_unpack.

Definition null_sequence : bytes := ["255"; "255"; "255"; "255"]%byte.

(** *** Paths and polygons *)

(** [pack("!l%dd" % (len(data),), len(data), *data)] *)
Definition path_pack (data : list float) : result bytes :=
  n <- Struct.pack_int Struct.fmt_l (len data) ;;
  Ok (n ++ List.concat (map Float.pack_double data)).

Fixpoint decode_doubles (n : nat) (b : bytes) : list float :=
  match n with
  | O => []
  | S n' => Float.decode_double (firstn 8 b) :: decode_doubles n' (skipn 8 b)
  end.

(** [unpack("!4x%dd" % (long_unpack(data[:4]),), data)]: [struct.unpack]
    wants a buffer of exactly the size of the format, and refuses a negative
    repeat count. *)
Definition path_unpack (data : bytes) : result (list float) :=
  n <- long_unpack (slice_to data 4) ;;
  if n <? 0 then Raise StructError
  else if negb (len data =? 4 + 8 * n) then Raise StructError
  else Ok (decode_doubles (Z.to_nat n) (skipn 4 data)).

(** *** Times and intervals *)

Definition timetuple : Type := Z * Z.

(** [floor(ts)], then [(int(seconds), int(1000000 * (ts - seconds)))]; the
    integer operands are converted to [float] by the arithmetic. *)
Definition mktimetuple (ts : float) : result timetuple :=
  seconds <- Float.floor ts ;;
  fseconds <- Float.of_int seconds ;;
  million <- Float.of_int 1000000 ;;
  us <- Float.to_int (million * (ts - fseconds))%float ;;
  Ok (seconds, us).

(** [float(seconds_ms[0]) + (seconds_ms[1] / 1000000.0)] *)
Definition mktime (seconds_ms : timetuple) : result float :=
  s <- Float.of_int (fst seconds_ms) ;;
  us <- Float.of_int (snd seconds_ms) ;;
  Ok (s + us / 1000000)%float.

Definition interval : Type := Z * Z * timetuple.

Definition interval_noday_pack (month_day_timetup : interval) : result bytes :=
  let '(month, day, timetup) := month_day_timetup in
  let timetup :=
    if negb (day =? 0) then (fst timetup + day * 24 * 60 * 60, snd timetup)
    else timetup in
  t <- mktime timetup ;;
  dl_pack (t, month).

Definition interval_noday_unpack (data : bytes) : result interval :=
  '(tim, month) <- dl_unpack data ;;
  tt <- mktimetuple tim ;;
  Ok (month, 0, tt).

(** *** Catalog vectors *)

(** [pack("!%dL"%(len(seq),), *seq).ljust(128, '\x00')]: the fill argument
    is written as a [str] literal. *)
Definition oidvector_pack (seq : list Z) : result bytes :=
  b <- Struct.pack_ints Struct.fmt_L seq ;;
  bytes_ljust b 128 (Str (String "000"%char EmptyString)).

(** *** Network addresses *)

(** [family, mask, is_cidr, size = data[:4]]: unpacking the first four bytes
    of a [bytes] object into four integers; anything but four values is a
    [ValueError] of the interpreter. *)
Definition unpack4 (b : bytes) : result (Z * Z * Z * Z) :=
  match b with
  | [b0; b1; b2; b3] => Ok (Z_of_byte b0, Z_of_byte b1, Z_of_byte b2, Z_of_byte b3)
  | b0 :: b1 :: b2 :: b3 :: _ =>
      Raise (ValueError "too many values to unpack (expected 4)")
  | _ =>
      Raise (ValueError ("not enough values to unpack (expected 4, got "
                         ++ decimal (len b) ++ ")"))
  end.

Definition net_unpack (data : bytes) : result (Z * Z * bytes) :=
  '(family, mask, is_cidr, size) <- unpack4 (slice_to data 4) ;;
  let rd := slice_from data 4 in
  if negb (len rd =? size) then Raise (ValueError "invalid size parameter")
  else Ok (family, mask, rd).

(** *** Records *)

Definition field : Type := Z * option bytes.

(** The body of the loop of [record_unpack]: one field read at [offset],
    and the offset after it. *)
Definition record_field (data : bytes) (offset : Z) : result (field * Z) :=
  typid <- oid_unpack (slice data offset (offset + 4)) ;;
  let offset := offset + 4 in
  if bytes_eqb (slice data offset (offset + 4)) null_sequence then
    Ok ((typid, None), offset + 4)
  else
    size <- long_unpack (slice data offset (offset + 4)) ;;
    let offset := offset + 4 in
    let att := slice data offset (offset + size) in
    if (size <? -1) || negb (len att =? size) then
      Raise (ValueError "insufficient data left in message")
    else Ok ((typid, Some att), offset + size).

(** [for x in range(columns)]: [n] iterations from [offset]; the fields
    yielded, and the offset reached or the exception that ended the loop. *)
Fixpoint record_loop (data : bytes) (n : nat) (offset : Z)
  : list field * result Z :=
  match n with
  | O => ([], Ok offset)
  | S n' =>
      match record_field data offset with
      | Raise e => ([], Raise e)
      | Ok (f, offset') =>
          let (fs, r) := record_loop data n' offset' in (f :: fs, r)
      end
  end.

(** Consuming the generator [record_unpack(data)]. *)
Definition record_unpack (data : bytes) : list field * ending :=
  match long_unpack (slice data 0 4) with
  | Raise e => ([], Raised e)
  | Ok columns =>
      let (fs, r) := record_loop data (Z.to_nat columns) 4 in
      match r with
      | Raise e => (fs, Raised e)
      | Ok offset =>
          if negb (len data - offset =? 0) then
            (fs, Raised (ValueError ("extra data, " ++ decimal (len data)
                                     ++ " octets, at end of record")))
          else (fs, Finished)
      end
  end.

(** [oid_pack(x) + (y is None and null_sequence or (long_pack(len(y)) + y))]:
    [null_sequence] is not empty, so the [and]/[or] chain selects it exactly
    when [y] is [None]. *)
Definition pack_field (f : field) : result bytes :=
  let '(x, y) := f in
  t <- oid_pack x ;;
  match y with
  | None => Ok (t ++ null_sequence)
  | Some y => l <- long_pack (len y) ;; Ok (t ++ l ++ y)
  end.

Definition record_pack (seq : list field) : result bytes :=
  n <- long_pack (len seq) ;;
  fs <- map_result pack_field seq ;;
  Ok (n ++ List.concat fs).

(** *** Arrays *)

(** One resumption of the generator [elements_unpack(data, offset)]; its
    state between two [yield]s is the offset. *)
Definition elements_next (data : bytes) (offset : Z) : step Z (option bytes) :=
  let data_len := len data in
  if offset <? data_len then
    let lend := slice data offset (offset + 4) in
    let offset := offset + 4 in
    if bytes_eqb lend null_sequence then Yield None offset
    else
      match long_unpack lend with
      | Raise e => Throw e
      | Ok sizeof_el =>
          Yield (Some (slice data offset (offset + sizeof_el)))
                (offset + sizeof_el)
      end
  else Stop.

(** The generator object [elements_unpack(data, offset)] before its first
    resumption: creating it runs nothing of its body. *)
Record elements_iter : Type := { iter_data : bytes; iter_offset : Z }.

Definition elements_unpack (data : bytes) (offset : Z) : elements_iter :=
  {| iter_data := data; iter_offset := offset |}.

(** Consuming an element generator, limited to [fuel] resumptions. *)
Definition elements_list (fuel : nat) (g : elements_iter)
  : list (option bytes) * option ending :=
  consume (elements_next (iter_data g)) fuel (iter_offset g).

Definition array : Type := Z * Z * list Z * elements_iter.

(** [array_unpack(data, llL_unpack = llL_unpack, unpack = struct.unpack_from)]
    with its two keyword parameters; the format ["!%dl" % (2 * ndim,)] given
    to [unpack] is represented by its repeat count. *)
Definition array_unpack_with
    (llL_unpack : bytes -> result (Z * Z * Z))
    (unpack : Z -> bytes -> Z -> result (list Z))
    (data : bytes) : result array :=
  '(ndim, flags, typid) <- llL_unpack data ;;
  if ndim <? 0 then
    Raise (ValueError ("invalid number of dimensions: " ++ decimal ndim))
  else
    let end_ := 4 * 2 * ndim + 12 in
    dlb <- unpack (2 * ndim) data 12 ;;
    Ok (flags, typid, dlb, elements_unpack data end_).

(** The call with the default values of the keyword parameters. *)
Definition array_unpack (data : bytes) : result array :=
  array_unpack_with llL_unpack (Struct.unpack_from_ints Struct.fmt_l) data.

(** *** Numerics *)

(** A numeric value: the four header fields and the digits.  The header,
    a tuple of four integers in Python, is a list here. *)
Definition numeric : Type := list Z * list Z.

Definition numeric_pack (data : numeric) : result bytes :=
  h <- hhhh_pack (fst data) ;;
  d <- Struct.pack_ints Struct.fmt_h (snd data) ;;
  Ok (h ++ d).

(** [(hhhh_unpack(data[:8]), unpack("!8x%dh"%((len(data)-8) // 2,), data))] *)
Definition numeric_unpack (data : bytes) : result numeric :=
  h <- hhhh_unpack (slice_to data 8) ;;
  d <- Struct.unpack_padded_ints 8 Struct.fmt_h ((len data - 8) / 2) data ;;
  Ok (h, d).

(** *** Times and intervals on 64-bit integers *)

Definition mktimetuple64 (ts : Z) : timetuple :=
  let seconds := ts / 1000000 in
  (seconds, ts - seconds * 1000000).

Definition mktime64 (seconds_ms : timetuple) : Z :=
  fst seconds_ms * 1000000 + snd seconds_ms.

Definition interval64_pack (m_d_timetup : interval) : result bytes :=
  let '(month, day, timetup) := m_d_timetup in
  qll_pack (mktime64 timetup, day, month).

Definition interval64_unpack (data : bytes) : result interval :=
  '(tim, day, month) <- qll_unpack data ;;
  Ok (month, day, mktimetuple64 tim).

Definition interval64_noday_pack (m_d_timetup : interval) : result bytes :=
  let '(month, day, timetup) := m_d_timetup in
  let timetup :=
    if negb (day =? 0) then (fst timetup + day * 24 * 60 * 60, snd timetup)
    else timetup in
  ql_pack (mktime64 timetup, month).

Definition interval64_noday_unpack (data : bytes) : result interval :=
  '(tim, month) <- ql_unpack data ;;
  Ok (month, 0, mktimetuple64 tim).

Definition timetz64_pack (timetup_tz : timetuple * Z) : result bytes :=
  let '(timetup, tz_offset) := timetup_tz in
  ql_pack (mktime64 timetup, tz_offset).

Definition timetz64_unpack (data : bytes) : result (timetuple * Z) :=
  '(ts, tz) <- ql_unpack data ;;
  Ok (mktimetuple64 ts, tz).

(** *** Catalog vectors, continued *)

(** [unpack("!32L", data)] *)
Definition oidvector_unpack (data : bytes) : result (list Z) :=
  Struct.unpack_padded_ints 0 Struct.fmt_L 32 data.

(** [pack("!%dh"%(len(seq),), *seq).ljust(64, '\x00')] *)
Definition int2vector_pack (seq : list Z) : result bytes :=
  b <- Struct.pack_ints Struct.fmt_h seq ;;
  bytes_ljust b 64 (Str (String "000"%char EmptyString)).

(** [unpack("!32h", data)] *)
Definition int2vector_unpack (data : bytes) : result (list Z) :=
  Struct.unpack_padded_ints 0 Struct.fmt_h 32 data.

(** *** Bit strings *)

Definition varbit_pack (bits_data : Z * bytes) : result bytes :=
  n <- long_pack (fst bits_data) ;;
  Ok (n ++ snd bits_data).

Definition varbit_unpack (data : bytes) : result (Z * bytes) :=
  n <- long_unpack (slice data 0 4) ;;
  Ok (n, slice_from data 4).

(** *** Network addresses, continued *)

(** The values [bytes] accepts as elements. *)
Definition octet (z : Z) : bool := (0 <=? z) && (z <? 256).

(** [bytes((family, mask, 1, len(data))) + data] *)
Definition net_pack (family_mask_data : Z * Z * bytes) : result bytes :=
  let '(family, mask, data) := family_mask_data in
  h <- bytes_of_ints [family; mask; 1; len data] ;;
  Ok (h ++ data).

(** *** Arrays, continued *)

(** What joining the generator [elements_pack(elements)] consumes: the
    chunks it yields, a NULL marker or a length and then the payload, up to
    the first element whose length cannot be packed. *)
Fixpoint elements_pack (elements : list (option bytes)) : result (list bytes) :=
  match elements with
  | [] => Ok []
  | None :: rest =>
      r <- elements_pack rest ;;
      Ok (null_sequence :: r)
  | Some x :: rest =>
      l <- long_pack (len x) ;;
      r <- elements_pack rest ;;
      Ok (l :: x :: r)
  end.

(** The elements whose length fits the signed 32-bit prefix, and the
    encoding of one element without the range check. *)
Definition element_ok (e : option bytes) : bool :=
  match e with
  | None => true
  | Some x => Struct.in_range Struct.fmt_l (len x)
  end.

Definition element_bytes (e : option bytes) : bytes :=
  match e with
  | None => null_sequence
  | Some x => Struct.be_bytes 4 (len x) ++ x
  end.

Definition raw_array : Type := Z * Z * list Z * list (option bytes).

Definition array_pack (array_data : raw_array) : result bytes :=
  let '(flags, typid, dlb, elements) := array_data in
  header <- llL_pack (len dlb / 2, flags, typid) ;;
  bounds <- map_result long_pack dlb ;;
  chunks <- elements_pack elements ;;
  Ok (header ++ List.concat bounds ++ List.concat chunks).

(** ** Sample values *)

(** The [inet] address 127.0.0.1/32, and the same with the [is_cidr] byte
    cleared. *)
Definition inet_loopback : bytes :=
  ["002"; "032"; "001"; "004"; "127"; "000"; "000"; "001"]%byte.

Definition inet_loopback_flag_cleared : bytes :=
  ["002"; "032"; "000"; "004"; "127"; "000"; "000"; "001"]%byte.

(** The no-day interval of 2 months and 259210 seconds: the double 259210.0
    ([0x410FA45000000000]) and the month. *)
Definition noday_2_months_259210_seconds : bytes :=
  ["065"; "015"; "164"; "080"; "000"; "000"; "000"; "000";
   "000"; "000"; "000"; "002"]%byte.

(** A path of the single point (1.5, 2.5) as [path_pack] writes it. *)
Definition one_point : list float := [1.5; 2.5]%float.

Definition one_point_packed : bytes :=
  ["000"; "000"; "000"; "002";
   "063"; "248"; "000"; "000"; "000"; "000"; "000"; "000";
   "064"; "004"; "000"; "000"; "000"; "000"; "000"; "000"]%byte.

(** An array header with no dimension, flags 0 and element type 23. *)
Definition array_header_0 : bytes :=
  ["000"; "000"; "000"; "000"; "000"; "000"; "000"; "000";
   "000"; "000"; "000"; "023"]%byte.

(** The header followed by one NULL element. *)
Definition array_0_with_null : bytes := array_header_0 ++ null_sequence.

(** The header followed by an element that declares five bytes and has
    two. *)
Definition array_truncated_element : bytes :=
  array_header_0 ++ ["000"; "000"; "000"; "005"; "097"; "098"]%byte.

(** The header followed by an element that declares the length -4. *)
Definition array_negative_element : bytes :=
  array_header_0 ++ ["255"; "255"; "255"; "252"]%byte.

(** An array header that declares -1 dimensions, followed by a NULL. *)
Definition array_negative_ndim : bytes :=
  ["255"; "255"; "255"; "255"; "000"; "000"; "000"; "000";
   "000"; "000"; "000"; "023"; "255"; "255"; "255"; "255"]%byte.

(** A record of one field of type 23 that declares five bytes and has two. *)
Definition record_truncated_field : bytes :=
  ["000"; "000"; "000"; "001"; "000"; "000"; "000"; "023";
   "000"; "000"; "000"; "005"; "001"; "002"]%byte.

(** A record of one field of type 23 and two bytes, followed by one more
    byte. *)
Definition record_trailing_byte : bytes :=
  ["000"; "000"; "000"; "001"; "000"; "000"; "000"; "023";
   "000"; "000"; "000"; "002"; "001"; "002"; "009"]%byte.

(** A well-formed record: a three-byte field, a NULL and an empty field. *)
Definition sample_record : list field :=
  [(23, Some ["001"; "002"; "003"]%byte); (25, None); (17, Some [])].

(** What the description requires of a field to be packed: the type is an
    unsigned 32-bit integer and the length of the payload fits the signed
    32-bit length prefix. *)
Definition field_ok (f : field) : bool :=
  Struct.in_range Struct.fmt_L (fst f)
  && match snd f with
     | None => true
     | Some y => Struct.in_range Struct.fmt_l (len y)
     end.

(** The encoding of one field, without the range checks. *)
Definition field_bytes (f : field) : bytes :=
  Struct.be_bytes 4 (fst f)
  ++ match snd f with
     | None => null_sequence
     | Some y => Struct.be_bytes 4 (len y) ++ y
     end.

(** * Properties *)

(** ** Lists, slices and bytes *)

Section Slices.

Context {A : Type}.
Implicit Types (l : list A) (lo hi : Z).

Lemma len_nonneg l : 0 <= len l.
Proof. unfold len. lia. Qed.

Lemma len_app l1 l2 : len (l1 ++ l2) = len l1 + len l2.
Proof. unfold len. rewrite length_app. lia. Qed.

Lemma len_cons (x : A) l : len (x :: l) = 1 + len l.
Proof. unfold len. simpl List.length. lia. Qed.

Lemma firstn_clip (n : nat) l :
  firstn (Nat.min n (List.length l)) l = firstn n l.
Proof.
  destruct (Nat.le_ge_cases n (List.length l)) as [H | H].
  - now rewrite Nat.min_l.
  - rewrite Nat.min_r by assumption.
    now rewrite firstn_all, firstn_all2.
Qed.

(** A slice with non-negative bounds is a [firstn] of a [skipn]. *)
Lemma slice_nonneg l lo hi :
  0 <= lo -> 0 <= hi ->
  slice l lo hi = firstn (Z.to_nat (hi - lo)) (skipn (Z.to_nat lo) l).
Proof.
  intros Hlo Hhi. unfold slice, adjust_index.
  destruct (Z.ltb_spec lo 0) as [? | _]; [lia |].
  destruct (Z.ltb_spec hi 0) as [? | _]; [lia |].
  destruct (Z.le_gt_cases lo (len l)) as [Hle | Hgt].
  - rewrite (Z.min_l lo) by assumption.
    rewrite <- (firstn_clip (Z.to_nat (hi - lo))).
    f_equal. rewrite length_skipn. unfold len in *. lia.
  - rewrite (Z.min_r lo) by lia.
    rewrite !skipn_all2 by (unfold len in *; lia).
    now rewrite !firstn_nil.
Qed.

Lemma slice_to_nonneg l hi :
  0 <= hi -> slice_to l hi = firstn (Z.to_nat hi) l.
Proof.
  intros Hhi. unfold slice_to, adjust_index.
  destruct (Z.ltb_spec hi 0) as [? | _]; [lia |].
  rewrite <- (firstn_clip (Z.to_nat hi)). f_equal.
  unfold len. lia.
Qed.

Lemma slice_from_nonneg l lo :
  0 <= lo -> slice_from l lo = skipn (Z.to_nat lo) l.
Proof.
  intros Hlo. unfold slice_from, adjust_index.
  destruct (Z.ltb_spec lo 0) as [? | _]; [lia |].
  destruct (Z.le_gt_cases lo (len l)) as [Hle | Hgt].
  - now rewrite Z.min_l.
  - rewrite Z.min_r by lia.
    rewrite !skipn_all2; unfold len in *; [reflexivity | lia | lia].
Qed.

Lemma firstn_app_exact (n : nat) (a b : list A) :
  List.length a = n -> firstn n (a ++ b) = a.
Proof.
  intros <-. now rewrite firstn_app, Nat.sub_diag, firstn_O, app_nil_r,
    firstn_all.
Qed.

Lemma skipn_app_exact (n : nat) (a b : list A) :
  List.length a = n -> skipn n (a ++ b) = b.
Proof.
  intros <-. now rewrite skipn_app, Nat.sub_diag, skipn_O, skipn_all.
Qed.

(** The slice that covers exactly the middle part of a concatenation. *)
Lemma slice_middle (pre mid post : list A) :
  slice (pre ++ mid ++ post) (len pre) (len pre + len mid) = mid.
Proof.
  rewrite slice_nonneg by (pose proof (len_nonneg pre);
                           pose proof (len_nonneg mid); lia).
  unfold len. rewrite Nat2Z.id.
  rewrite skipn_app, skipn_all, Nat.sub_diag. simpl.
  replace (Z.to_nat _) with (List.length mid + 0)%nat by lia.
  now rewrite firstn_app_2, firstn_O, app_nil_r.
Qed.

End Slices.

Lemma Z_of_byte_range (b : byte) : 0 <= Z_of_byte b < 256.
Proof.
  unfold Z_of_byte. pose proof (Byte.to_N_bounded b). lia.
Qed.

Lemma Z_of_byte_of_Z (z : Z) : 0 <= z < 256 -> Z_of_byte (byte_of_Z z) = z.
Proof.
  intros Hz. unfold Z_of_byte, byte_of_Z.
  destruct (Byte.of_N (Z.to_N z)) as [b |] eqn:E.
  - apply Byte.to_of_N in E. rewrite E. lia.
  - apply Byte.of_N_None_iff in E. lia.
Qed.

Lemma byte_of_Z_of_byte (b : byte) : byte_of_Z (Z_of_byte b) = b.
Proof.
  unfold Z_of_byte, byte_of_Z. rewrite N2Z.id. now rewrite Byte.of_to_N.
Qed.

Lemma bytes_eqb_eq (a b : bytes) : bytes_eqb a b = true <-> a = b.
Proof.
  revert b. induction a as [| x a IH]; intros [| y b]; simpl;
    try (split; [discriminate | discriminate]); try tauto.
  rewrite andb_true_iff, IH. split.
  - intros [Hxy ->]. now rewrite (Byte.byte_dec_bl _ _ Hxy).
  - intros [= -> ->]. split; [now apply Byte.byte_dec_lb | reflexivity].
Qed.

Lemma bytes_eqb_neq (a b : bytes) : bytes_eqb a b = false <-> a <> b.
Proof.
  rewrite <- bytes_eqb_eq. destruct (bytes_eqb a b); split; congruence.
Qed.

(** ** Big-endian fields *)

Module StructFacts.

Import Struct.

Lemma length_be_bytes (n : nat) (z : Z) : List.length (be_bytes n z) = n.
Proof. induction n; simpl; congruence. Qed.

Lemma len_be_bytes (n : nat) (z : Z) : len (be_bytes n z) = Z.of_nat n.
Proof. unfold len. now rewrite length_be_bytes. Qed.

Lemma be_fold (n : nat) (z acc : Z) :
  fold_left (fun a x => a * 256 + Z_of_byte x) (be_bytes n z) acc
  = acc * 2 ^ (8 * Z.of_nat n) + z mod 2 ^ (8 * Z.of_nat n).
Proof.
  revert acc. induction n as [| n IH]; intros acc.
  - simpl. rewrite Z.mod_1_r. lia.
  - cbn [be_bytes fold_left]. rewrite IH.
    rewrite Z_of_byte_of_Z by (apply Z.mod_pos_bound; lia).
    replace (8 * Z.of_nat (S n)) with (8 * Z.of_nat n + 8) by lia.
    rewrite Z.pow_add_r by lia.
    change (2 ^ 8) with 256.
    set (P := 2 ^ (8 * Z.of_nat n)).
    assert (HP : 0 < P) by (apply Z.pow_pos_nonneg; lia).
    rewrite (Z.rem_mul_r z P 256) by lia.
    ring.
Qed.

(** Decoding what was encoded gives the value modulo the width. *)
Lemma be_value_be_bytes (n : nat) (z : Z) :
  be_value (be_bytes n z) = z mod 2 ^ (8 * Z.of_nat n).
Proof. unfold be_value. rewrite be_fold. lia. Qed.

Lemma be_value_range (b : bytes) : 0 <= be_value b < 2 ^ (8 * len b).
Proof.
  unfold be_value.
  assert (H : forall acc, 0 <= acc ->
            0 <= fold_left (fun a x => a * 256 + Z_of_byte x) b acc
            < (acc + 1) * 2 ^ (8 * len b)).
  { induction b as [| x b IH]; intros acc Hacc.
    - simpl. change (len (@nil byte)) with 0. simpl. lia.
    - cbn [fold_left]. pose proof (Z_of_byte_range x) as Hx.
      specialize (IH (acc * 256 + Z_of_byte x) ltac:(lia)).
      rewrite len_cons.
      replace (8 * (1 + len b)) with (8 + 8 * len b)
        by lia.
      rewrite Z.pow_add_r by (pose proof (len_nonneg b); lia).
      change (2 ^ 8) with 256.
      set (P := 2 ^ (8 * len b)) in *.
      assert (HP : 0 < P)
        by (apply Z.pow_pos_nonneg; pose proof (len_nonneg b); lia).
      nia. }
  specialize (H 0 ltac:(lia)). lia.
Qed.

(** A value in the range of its format is packed to [width] bytes that
    decode to it. *)
Lemma decode_pack_l (v : Z) :
  in_range fmt_l v = true -> decode_int fmt_l (be_bytes 4 v) = v.
Proof.
  intros H. unfold decode_int. rewrite be_value_be_bytes.
  unfold in_range, min_value, max_value, bits in *.
  change (signed fmt_l) with true in *.
  change (8 * Z.of_nat (width fmt_l)) with 32 in *.
  change (8 * Z.of_nat 4) with 32.
  change (2 ^ 32) with 4294967296 in *.
  change (2 ^ (32 - 1)) with 2147483648 in *.
  apply andb_true_iff in H as [H1 H2].
  apply Z.leb_le in H1. apply Z.leb_le in H2.
  cbn [andb].
  destruct (Z.leb_spec 2147483648 (v mod 4294967296)) as [Hc | Hc].
  - destruct (Z.lt_ge_cases v 0) as [Hneg | Hpos].
    + rewrite <- (Z.mod_unique v 4294967296 (-1) (v + 4294967296)); lia.
    + rewrite Z.mod_small in Hc; lia.
  - destruct (Z.lt_ge_cases v 0) as [Hneg | Hpos].
    + rewrite <- (Z.mod_unique v 4294967296 (-1) (v + 4294967296)) in Hc; lia.
    + rewrite Z.mod_small; lia.
Qed.

Lemma decode_pack_L (v : Z) :
  in_range fmt_L v = true -> decode_int fmt_L (be_bytes 4 v) = v.
Proof.
  intros H. unfold decode_int. rewrite be_value_be_bytes.
  unfold in_range, min_value, max_value, bits in *.
  change (signed fmt_L) with false in *.
  change (8 * Z.of_nat (width fmt_L)) with 32 in *.
  change (8 * Z.of_nat 4) with 32.
  change (2 ^ 32) with 4294967296 in *.
  apply andb_true_iff in H as [H1 H2].
  apply Z.leb_le in H1. apply Z.leb_le in H2.
  cbn [andb].
  rewrite Z.mod_small; lia.
Qed.

Lemma in_range_l (v : Z) :
  in_range fmt_l v = true <-> - 2 ^ 31 <= v <= 2 ^ 31 - 1.
Proof.
  unfold in_range.
  change (min_value fmt_l) with (-2147483648).
  change (max_value fmt_l) with 2147483647.
  rewrite andb_true_iff, !Z.leb_le. lia.
Qed.

Lemma in_range_L (v : Z) :
  in_range fmt_L v = true <-> 0 <= v <= 2 ^ 32 - 1.
Proof.
  unfold in_range.
  change (min_value fmt_L) with 0.
  change (max_value fmt_L) with 4294967295.
  rewrite andb_true_iff, !Z.leb_le. lia.
Qed.

Lemma in_range_l_len {A : Type} (l : list A) :
  len l <= 2 ^ 31 - 1 -> in_range fmt_l (len l) = true.
Proof.
  intros H. pose proof (len_nonneg l). apply in_range_l. lia.
Qed.

Lemma unpack_int_exact (f : int_format) (b : bytes) :
  List.length b = width f -> unpack_int f b = Ok (decode_int f b).
Proof.
  intros Hlen. unfold unpack_int, len. rewrite Hlen.
  rewrite Z.ltb_irrefl. now rewrite <- Hlen, firstn_all.
Qed.

Lemma unpack_int_short (f : int_format) (b : bytes) :
  (List.length b < width f)%nat -> unpack_int f b = Raise StructError.
Proof.
  intros Hlen. unfold unpack_int, len.
  destruct (Z.ltb_spec (Z.of_nat (List.length b)) (Z.of_nat (width f)));
    [reflexivity | lia].
Qed.

End StructFacts.

(** ** Network addresses *)

Lemma net_unpack_header (family mask is_cidr size : byte) (rd : bytes) :
  net_unpack (family :: mask :: is_cidr :: size :: rd)
  = if len rd =? Z_of_byte size
    then Ok (Z_of_byte family, Z_of_byte mask, rd)
    else Raise (ValueError "invalid size parameter").
Proof.
  unfold net_unpack.
  rewrite slice_to_nonneg, slice_from_nonneg by lia.
  change (Z.to_nat 4) with 4%nat. cbn [firstn skipn unpack4 bind].
  now destruct (len rd =? Z_of_byte size).
Qed.

Lemma at_least_four (data : bytes) :
  4 <= len data ->
  exists b0 b1 b2 b3 rd, data = b0 :: b1 :: b2 :: b3 :: rd.
Proof.
  unfold len.
  destruct data as [| b0 [| b1 [| b2 [| b3 rd]]]]; simpl; try lia.
  intros _. now exists b0, b1, b2, b3, rd.
Qed.

(** C6: on a buffer of at least four bytes, [net_unpack] raises exactly when
    the fourth header byte differs from the number of bytes that follow the
    header, the exception being the module's "invalid size parameter"; when
    they agree it returns the family, the mask and the trailing bytes. *)
Theorem net_unpack_size_check (data : bytes) :
  4 <= len data ->
  let family := Z_of_byte (nth 0 data "000"%byte) in
  let mask := Z_of_byte (nth 1 data "000"%byte) in
  let size := Z_of_byte (nth 3 data "000"%byte) in
  let rd := skipn 4 data in
  ((exists e, net_unpack data = Raise e) <-> size <> len rd)
  /\ (size <> len rd ->
      net_unpack data = Raise (ValueError "invalid size parameter"))
  /\ (size = len rd -> net_unpack data = Ok (family, mask, rd)).
Proof.
  intros Hlen.
  destruct (at_least_four data Hlen) as (b0 & b1 & b2 & b3 & rd & ->).
  cbn [nth skipn]. rewrite net_unpack_header.
  destruct (Z.eqb_spec (len rd) (Z_of_byte b3)) as [Heq | Hne].
  - split; [| split].
    + split; [intros [e He]; discriminate | congruence].
    + congruence.
    + reflexivity.
  - split; [| split].
    + split; [congruence | intros _; eauto].
    + reflexivity.
    + congruence.
Qed.

Lemma net_unpack_size_check_witness :
  4 <= len inet_loopback
  /\ net_unpack inet_loopback
     = Ok (2, 32, ["127"; "000"; "000"; "001"]%byte).
Proof.
  assert (H : 4 <= len inet_loopback) by (vm_compute; discriminate).
  split; [exact H |].
  apply (net_unpack_size_check inet_loopback H). reflexivity.
Defined.

(** C10: the third header byte, the [is_cidr] flag, has no influence on
    [net_unpack]: two buffers of at least four bytes that agree at every
    index but 2 give the same result, value or exception. *)
Theorem net_unpack_ignores_is_cidr (d1 d2 : bytes) :
  4 <= len d1 -> 4 <= len d2 ->
  (forall i : nat, i <> 2%nat -> nth_error d1 i = nth_error d2 i) ->
  net_unpack d1 = net_unpack d2.
Proof.
  intros H1 H2 Hsame.
  destruct (at_least_four d1 H1) as (a0 & a1 & a2 & a3 & r1 & ->).
  destruct (at_least_four d2 H2) as (b0 & b1 & b2 & b3 & r2 & ->).
  pose proof (Hsame 0%nat ltac:(lia)) as E0.
  pose proof (Hsame 1%nat ltac:(lia)) as E1.
  pose proof (Hsame 3%nat ltac:(lia)) as E3.
  cbn [nth_error] in E0, E1, E3.
  injection E0 as ->. injection E1 as ->. injection E3 as ->.
  assert (Hr : r1 = r2).
  { apply nth_error_ext. intros i.
    exact (Hsame (4 + i)%nat ltac:(lia)). }
  subst r2. now rewrite !net_unpack_header.
Qed.

Lemma net_unpack_ignores_is_cidr_witness :
  4 <= len inet_loopback
  /\ 4 <= len inet_loopback_flag_cleared
  /\ (forall i : nat, i <> 2%nat ->
        nth_error inet_loopback i = nth_error inet_loopback_flag_cleared i)
  /\ net_unpack inet_loopback = net_unpack inet_loopback_flag_cleared.
Proof.
  assert (H1 : 4 <= len inet_loopback) by (vm_compute; discriminate).
  assert (H2 : 4 <= len inet_loopback_flag_cleared)
    by (vm_compute; discriminate).
  assert (H3 : forall i : nat, i <> 2%nat ->
             nth_error inet_loopback i
             = nth_error inet_loopback_flag_cleared i).
  { intros i Hi.
    do 9 (destruct i as [| i];
          [reflexivity || (exfalso; apply Hi; reflexivity) |]).
    reflexivity. }
  split; [exact H1 |]. split; [exact H2 |]. split; [exact H3 |].
  exact (net_unpack_ignores_is_cidr _ _ H1 H2 H3).
Defined.

(** ** Catalog vectors *)

(** C2: [oidvector_pack([1, 2, 3])] does not return: the three integers are
    packed, and the call of [ljust] with a [str] fill character on the
    [bytes] result raises [TypeError]. *)
Theorem oidvector_pack_123_raises :
  Struct.pack_ints Struct.fmt_L [1; 2; 3]
  = Ok ["000"; "000"; "000"; "001"; "000"; "000"; "000"; "002";
        "000"; "000"; "000"; "003"]%byte
  /\ oidvector_pack [1; 2; 3] = Raise TypeError.
Proof. split; reflexivity. Qed.

(** ** Intervals without a day component *)

Lemma interval_noday_pack_folds (month day seconds microseconds : Z) :
  interval_noday_pack (month, day, (seconds, microseconds))
  = (t <- mktime (seconds + day * 86400, microseconds) ;; dl_pack (t, month)).
Proof.
  unfold interval_noday_pack. cbn [fst snd].
  destruct (Z.eqb_spec day 0) as [-> | Hday]; cbn [negb].
  - now rewrite Z.add_0_r.
  - now replace (day * 24 * 60 * 60) with (day * 86400) by lia.
Qed.

Lemma interval_noday_unpack_eq (data : bytes) :
  12 <= len data ->
  interval_noday_unpack data
  = (tt <- mktimetuple (Float.decode_double (firstn 8 data)) ;;
     Ok (Struct.decode_int Struct.fmt_l (firstn 4 (skipn 8 data)), 0, tt)).
Proof.
  intros Hlen. unfold interval_noday_unpack, dl_unpack.
  destruct (Z.ltb_spec (len data) 12) as [? | _]; [lia | reflexivity].
Qed.

Lemma interval_noday_unpack_day (data : bytes) (r : interval) :
  interval_noday_unpack data = Ok r -> snd (fst r) = 0.
Proof.
  unfold interval_noday_unpack.
  destruct (dl_unpack data) as [[tim month] | e]; cbn [bind]; [| discriminate].
  destruct (mktimetuple tim) as [tt | e]; cbn [bind]; [| discriminate].
  now intros [= <-].
Qed.

(** C7: packing without a day component encodes the month together with the
    time of [seconds + day * 86400] seconds; unpacking reads the month and
    the time back and always reports the day 0; the interval (2, 3, (10, 0))
    is packed as 259210 seconds and 2 months, which unpacks to
    (2, 0, (259210, 0)). *)
Theorem interval_noday_folds_days :
  (forall month day seconds microseconds : Z,
      interval_noday_pack (month, day, (seconds, microseconds))
      = (t <- mktime (seconds + day * 86400, microseconds) ;;
         dl_pack (t, month)))
  /\ (forall data : bytes,
         12 <= len data ->
         interval_noday_unpack data
         = (tt <- mktimetuple (Float.decode_double (firstn 8 data)) ;;
            Ok (Struct.decode_int Struct.fmt_l (firstn 4 (skipn 8 data)),
                0, tt)))
  /\ (forall (data : bytes) (r : interval),
         interval_noday_unpack data = Ok r -> snd (fst r) = 0)
  /\ mktime (10 + 3 * 86400, 0) = Ok 259210%float
  /\ interval_noday_pack (2, 3, (10, 0)) = Ok noday_2_months_259210_seconds
  /\ interval_noday_unpack noday_2_months_259210_seconds
     = Ok (2, 0, (259210, 0)).
Proof.
  split; [exact interval_noday_pack_folds |].
  split; [exact interval_noday_unpack_eq |].
  split; [exact interval_noday_unpack_day |].
  repeat split; vm_compute; reflexivity.
Qed.

Lemma interval_noday_folds_days_witness :
  12 <= len noday_2_months_259210_seconds
  /\ interval_noday_unpack noday_2_months_259210_seconds
     = Ok (2, 0, (259210, 0))
  /\ snd (fst (2, 0, (259210, 0))) = 0.
Proof.
  destruct interval_noday_folds_days as (_ & Hunpack & Hday & _ & _ & Hex).
  assert (Hlen : 12 <= len noday_2_months_259210_seconds)
    by (vm_compute; discriminate).
  split; [exact Hlen |].
  split.
  - rewrite (Hunpack _ Hlen). vm_compute. reflexivity.
  - exact (Hday _ _ Hex).
Defined.

(** ** Paths *)

Lemma length_pack_double (x : float) : List.length (Float.pack_double x) = 8%nat.
Proof. apply StructFacts.length_be_bytes. Qed.

Lemma len_packed_doubles (data : list float) :
  len (List.concat (map Float.pack_double data)) = 8 * len data.
Proof.
  induction data as [| x data IH]; [reflexivity |].
  cbn [map List.concat]. rewrite len_app, IH, len_cons.
  unfold len at 1. rewrite length_pack_double. lia.
Qed.

Lemma decode_packed_doubles (data : list float) :
  decode_doubles (List.length data) (List.concat (map Float.pack_double data))
  = map (fun x => Float.decode_double (Float.pack_double x)) data.
Proof.
  induction data as [| x data IH]; [reflexivity |].
  cbn [map List.concat List.length decode_doubles].
  rewrite firstn_app_exact, skipn_app_exact by apply length_pack_double.
  now rewrite IH.
Qed.

Lemma path_pack_bytes (data : list float) :
  len data <= 2 ^ 31 - 1 ->
  path_pack data
  = Ok (Struct.be_bytes 4 (len data)
        ++ List.concat (map Float.pack_double data)).
Proof.
  intros Hlen. unfold path_pack, Struct.pack_int.
  rewrite StructFacts.in_range_l_len by assumption. reflexivity.
Qed.

Lemma path_unpack_packed (data : list float) :
  len data <= 2 ^ 31 - 1 ->
  path_unpack (Struct.be_bytes 4 (len data)
               ++ List.concat (map Float.pack_double data))
  = Ok (map (fun x => Float.decode_double (Float.pack_double x)) data).
Proof.
  intros Hlen. pose proof (len_nonneg data) as Hpos. unfold path_unpack.
  rewrite slice_to_nonneg by lia. change (Z.to_nat 4) with 4%nat.
  rewrite firstn_app_exact by apply StructFacts.length_be_bytes.
  unfold long_unpack.
  rewrite StructFacts.unpack_int_exact by apply StructFacts.length_be_bytes.
  rewrite StructFacts.decode_pack_l
    by (now apply StructFacts.in_range_l_len).
  cbn [bind].
  destruct (Z.ltb_spec (len data) 0) as [? | _]; [lia |].
  rewrite len_app, StructFacts.len_be_bytes, len_packed_doubles.
  change (Z.of_nat 4) with 4. rewrite Z.eqb_refl. cbn [negb].
  rewrite skipn_app_exact by apply StructFacts.length_be_bytes.
  unfold len. rewrite Nat2Z.id. now rewrite decode_packed_doubles.
Qed.

(** C4, amended: for a flat sequence of [2 * n] doubles that
    [path_pack] accepts, the result is the number of doubles [2 * n], not the
    number of points [n], as a big-endian signed 32-bit integer, followed by
    the doubles in big-endian order; [path_unpack] reads that many doubles
    back. *)
Theorem path_pack_prefix_counts_doubles (n : Z) (data : list float) :
  len data = 2 * n ->
  2 * n <= 2 ^ 31 - 1 ->
  let out := Struct.be_bytes 4 (2 * n)
             ++ List.concat (map Float.pack_double data) in
  path_pack data = Ok out
  /\ long_unpack (slice_to out 4) = Ok (2 * n)
  /\ path_unpack out
     = Ok (map (fun x => Float.decode_double (Float.pack_double x)) data).
Proof.
  intros Hn Hmax. rewrite <- Hn in *. cbv zeta.
  split; [now apply path_pack_bytes |].
  split; [| now apply path_unpack_packed].
  pose proof (len_nonneg data) as Hpos.
  rewrite slice_to_nonneg by lia. change (Z.to_nat 4) with 4%nat.
  rewrite firstn_app_exact by apply StructFacts.length_be_bytes.
  unfold long_unpack.
  rewrite StructFacts.unpack_int_exact by apply StructFacts.length_be_bytes.
  rewrite StructFacts.decode_pack_l; [reflexivity |].
  now apply StructFacts.in_range_l_len.
Qed.

Lemma path_pack_prefix_counts_doubles_witness :
  len one_point = 2 * 1
  /\ 2 * 1 <= 2 ^ 31 - 1
  /\ path_pack one_point = Ok one_point_packed
  /\ path_unpack one_point_packed = Ok one_point.
Proof.
  assert (H1 : len one_point = 2 * 1) by reflexivity.
  assert (H2 : 2 * 1 <= 2 ^ 31 - 1) by (vm_compute; discriminate).
  destruct (path_pack_prefix_counts_doubles 1 one_point H1 H2)
    as (Hpack & _ & Hunpack).
  split; [exact H1 |]. split; [exact H2 |].
  split; [exact Hpack | exact Hunpack].
Defined.

(** Counterexample for C4: for the single point (1.5, 2.5) the prefix of the
    packed path is 2, the number of doubles, and not the number of points,
    1. *)
Lemma path_pack_prefix_not_point_count :
  len one_point = 2 * 1
  /\ path_pack one_point = Ok one_point_packed
  /\ long_unpack (slice_to one_point_packed 4) = Ok 2
  /\ long_unpack (slice_to one_point_packed 4) <> Ok 1
  /\ firstn 4 one_point_packed <> Struct.be_bytes 4 1.
Proof.
  repeat split; try (vm_compute; reflexivity); vm_compute; discriminate.
Qed.

(** ** Arrays *)

Lemma llL_unpack_header (data : bytes) :
  12 <= len data ->
  llL_unpack data
  = Ok (Struct.decode_int Struct.fmt_l (firstn 4 data),
        Struct.decode_int Struct.fmt_l (firstn 4 (skipn 4 data)),
        Struct.decode_int Struct.fmt_L (firstn 4 (skipn 8 data))).
Proof.
  intros Hlen. unfold llL_unpack.
  destruct (Z.ltb_spec (len data) 12) as [? | _]; [lia | reflexivity].
Qed.

(** C8: on a buffer of at least twelve bytes whose first big-endian signed
    32-bit field, the number of dimensions, is negative, [array_unpack] raises
    the module's "invalid number of dimensions" error, and it does so
    whatever the function that reads the bounds is: that function is not
    reached.  An exception is raised as well with any other header decoder
    that, when it returns, returns this number of dimensions. *)
Theorem array_unpack_negative_ndim
    (data : bytes) (unpack : Z -> bytes -> Z -> result (list Z)) :
  12 <= len data ->
  Struct.decode_int Struct.fmt_l (firstn 4 data) < 0 ->
  let e := ValueError ("invalid number of dimensions: "
                       ++ decimal (Struct.decode_int Struct.fmt_l
                                     (firstn 4 data))) in
  array_unpack_with llL_unpack unpack data = Raise e
  /\ array_unpack data = Raise e
  /\ (forall header : bytes -> result (Z * Z * Z),
         (forall r, header data = Ok r ->
                    fst (fst r) = Struct.decode_int Struct.fmt_l (firstn 4 data)) ->
         exists e', array_unpack_with header unpack data = Raise e').
Proof.
  intros Hlen Hneg e.
  assert (H : forall u, array_unpack_with llL_unpack u data = Raise e).
  { intros u. unfold array_unpack_with.
    rewrite llL_unpack_header by assumption. cbn [bind].
    destruct (Z.ltb_spec (Struct.decode_int Struct.fmt_l (firstn 4 data)) 0)
      as [_ | ?]; [reflexivity | lia]. }
  split; [apply H |]. split; [apply H |].
  intros header Hheader. unfold array_unpack_with.
  destruct (header data) as [[[ndim flags] typid] | e0] eqn:Eh; cbn [bind].
  - specialize (Hheader _ eq_refl). cbn [fst] in Hheader. subst ndim.
    destruct (Z.ltb_spec (Struct.decode_int Struct.fmt_l (firstn 4 data)) 0)
      as [_ | ?]; [eauto | lia].
  - eauto.
Qed.

Lemma array_unpack_negative_ndim_witness :
  12 <= len array_negative_ndim
  /\ Struct.decode_int Struct.fmt_l (firstn 4 array_negative_ndim) < 0
  /\ array_unpack_with llL_unpack (fun _ _ _ => Ok []) array_negative_ndim
     = Raise (ValueError "invalid number of dimensions: -1")
  /\ array_unpack array_negative_ndim
     = Raise (ValueError "invalid number of dimensions: -1").
Proof.
  assert (H1 : 12 <= len array_negative_ndim) by (vm_compute; discriminate).
  assert (H2 : Struct.decode_int Struct.fmt_l (firstn 4 array_negative_ndim) < 0)
    by reflexivity.
  split; [exact H1 |]. split; [exact H2 |].
  destruct (array_unpack_negative_ndim array_negative_ndim
              (fun _ _ _ => Ok []) H1 H2) as (Ha & Hb & _).
  split; [exact Ha | exact Hb].
Defined.

Lemma elements_next_end (data : bytes) (offset : Z) :
  len data <= offset -> elements_next data offset = Stop.
Proof.
  intros H. unfold elements_next.
  destruct (Z.ltb_spec offset (len data)); [lia | reflexivity].
Qed.

(** C9, amended: on a buffer whose header declares no dimension,
    [array_unpack] succeeds with an empty sequence of bounds and an element
    generator that starts right after the twelve bytes of the header; the
    generator yields nothing when the buffer ends there. *)
Theorem array_unpack_no_dimension (data : bytes) :
  12 <= len data ->
  Struct.decode_int Struct.fmt_l (firstn 4 data) = 0 ->
  array_unpack data
  = Ok (Struct.decode_int Struct.fmt_l (firstn 4 (skipn 4 data)),
        Struct.decode_int Struct.fmt_L (firstn 4 (skipn 8 data)),
        [], elements_unpack data 12)
  /\ (len data = 12 ->
      forall fuel : nat,
        elements_list (S fuel) (elements_unpack data 12)
        = ([], Some Finished)).
Proof.
  intros Hlen Hndim. split.
  - unfold array_unpack, array_unpack_with.
    rewrite llL_unpack_header by assumption. rewrite Hndim. cbn [bind].
    unfold Struct.unpack_from_ints.
    change (2 * 0 <? 0) with false. cbn match.
    destruct (Z.ltb_spec (len data - 12) (2 * 0 * Z.of_nat (Struct.width Struct.fmt_l)))
      as [? | _]; [lia | reflexivity].
  - intros H12 fuel. unfold elements_list, elements_unpack.
    cbn [iter_data iter_offset consume].
    now rewrite elements_next_end by lia.
Qed.

Lemma array_unpack_no_dimension_witness :
  12 <= len array_header_0
  /\ Struct.decode_int Struct.fmt_l (firstn 4 array_header_0) = 0
  /\ array_unpack array_header_0
     = Ok (0, 23, [], elements_unpack array_header_0 12)
  /\ elements_list 1 (elements_unpack array_header_0 12) = ([], Some Finished).
Proof.
  assert (H1 : 12 <= len array_header_0) by (vm_compute; discriminate).
  assert (H2 : Struct.decode_int Struct.fmt_l (firstn 4 array_header_0) = 0)
    by reflexivity.
  destruct (array_unpack_no_dimension array_header_0 H1 H2) as [Ha Hg].
  split; [exact H1 |]. split; [exact H2 |].
  split; [exact Ha | exact (Hg eq_refl 0%nat)].
Defined.

(** Counterexample for C9: on a buffer that declares no dimension and goes
    on after its header, [array_unpack] succeeds and the element generator
    yields the NULL that follows. *)
Lemma array_unpack_no_dimension_yields_element :
  Struct.decode_int Struct.fmt_l (firstn 4 array_0_with_null) = 0
  /\ array_unpack array_0_with_null
     = Ok (0, 23, [], elements_unpack array_0_with_null 12)
  /\ (forall fuel : nat,
         elements_list (S (S fuel)) (elements_unpack array_0_with_null 12)
         = ([None], Some Finished)).
Proof.
  split; [reflexivity |]. split; [reflexivity |].
  intros fuel. reflexivity.
Qed.

Lemma consume_yield {S A : Type} (next : S -> step S A) (fuel : nat)
    (s : S) (a : A) (s' : S) :
  next s = Yield a s' ->
  consume next (Datatypes.S fuel) s
  = (a :: fst (consume next fuel s'), snd (consume next fuel s')).
Proof.
  intros H. cbn [consume]. rewrite H.
  now destruct (consume next fuel s').
Qed.

Lemma elements_negative_length_loops (fuel : nat) :
  elements_list fuel (elements_unpack array_negative_element 12)
  = (repeat (Some []) fuel, None).
Proof.
  unfold elements_list, elements_unpack. cbn [iter_data iter_offset].
  induction fuel as [| fuel IH]; [reflexivity |].
  rewrite (consume_yield (elements_next array_negative_element) fuel 12
             (Some []) 12 eq_refl).
  cbn [fst snd repeat].
  now rewrite IH.
Qed.

(** C3: the element generator of [array_unpack] does not check the declared
    lengths.  An element that declares five bytes where two remain is yielded
    as those two bytes and the iteration ends normally; an element that
    declares the length -4 is yielded as an empty payload, and the generator
    never ends and never raises. *)
Theorem elements_unpack_accepts_malformed_lengths :
  array_unpack array_truncated_element
  = Ok (0, 23, [], elements_unpack array_truncated_element 12)
  /\ (forall fuel : nat,
         elements_list (S (S fuel)) (elements_unpack array_truncated_element 12)
         = ([Some ["097"; "098"]%byte], Some Finished))
  /\ array_unpack array_negative_element
     = Ok (0, 23, [], elements_unpack array_negative_element 12)
  /\ (forall fuel : nat,
         elements_list fuel (elements_unpack array_negative_element 12)
         = (repeat (Some []) fuel, None)).
Proof.
  split; [reflexivity |].
  split; [intros fuel; reflexivity |].
  split; [reflexivity |].
  exact elements_negative_length_loops.
Qed.

(** ** Records *)

Lemma slice_at {A : Type} (pre mid post : list A) (off n : Z) :
  off = len pre -> n = len mid ->
  slice (pre ++ mid ++ post) off (off + n) = mid.
Proof. intros -> ->. apply slice_middle. Qed.

Lemma len_slice_nonneg {A : Type} (l : list A) (lo n : Z) :
  0 <= lo -> 0 <= n ->
  len (slice l lo (lo + n)) = Z.max 0 (Z.min n (len l - lo)).
Proof.
  intros Hlo Hn. rewrite slice_nonneg by lia.
  unfold len. rewrite length_firstn, length_skipn. lia.
Qed.

Lemma null_sequence_value : Struct.be_value null_sequence = 4294967295.
Proof. reflexivity. Qed.

Lemma long_unpack_null : long_unpack null_sequence = Ok (-1).
Proof. reflexivity. Qed.

Lemma be4_not_null (n : Z) :
  0 <= n <= 2 ^ 31 - 1 -> Struct.be_bytes 4 n <> null_sequence.
Proof.
  intros Hn Heq. apply (f_equal Struct.be_value) in Heq.
  rewrite StructFacts.be_value_be_bytes, null_sequence_value in Heq.
  change (2 ^ (8 * Z.of_nat 4)) with 4294967296 in Heq.
  rewrite Z.mod_small in Heq; lia.
Qed.

Lemma long_unpack_be4 (v : Z) :
  Struct.in_range Struct.fmt_l v = true ->
  long_unpack (Struct.be_bytes 4 v) = Ok v.
Proof.
  intros Hv. unfold long_unpack.
  rewrite StructFacts.unpack_int_exact by apply StructFacts.length_be_bytes.
  now rewrite StructFacts.decode_pack_l.
Qed.

Lemma oid_unpack_be4 (v : Z) :
  Struct.in_range Struct.fmt_L v = true ->
  oid_unpack (Struct.be_bytes 4 v) = Ok v.
Proof.
  intros Hv. unfold oid_unpack, ulong_unpack.
  rewrite StructFacts.unpack_int_exact by apply StructFacts.length_be_bytes.
  now rewrite StructFacts.decode_pack_L.
Qed.

Lemma pack_field_ok (f : field) :
  field_ok f = true -> pack_field f = Ok (field_bytes f).
Proof.
  destruct f as [t [y |]]; unfold field_ok, pack_field, field_bytes;
    cbn [fst snd]; intros H.
  - apply andb_true_iff in H as [Ht Hy].
    unfold oid_pack, ulong_pack, long_pack, Struct.pack_int.
    now rewrite Ht, Hy.
  - rewrite andb_true_r in H.
    unfold oid_pack, ulong_pack, Struct.pack_int. now rewrite H.
Qed.

Lemma map_pack_field_ok (s : list field) :
  forallb field_ok s = true ->
  map_result pack_field s = Ok (map field_bytes s).
Proof.
  induction s as [| f s IH]; [reflexivity |].
  cbn [forallb map_result map]. intros H.
  apply andb_true_iff in H as [Hf Hs].
  now rewrite (pack_field_ok f Hf), (IH Hs).
Qed.

Lemma record_pack_ok (s : list field) :
  len s <= 2 ^ 31 - 1 ->
  forallb field_ok s = true ->
  record_pack s
  = Ok (Struct.be_bytes 4 (len s) ++ List.concat (map field_bytes s)).
Proof.
  intros Hlen Hs. unfold record_pack, long_pack, Struct.pack_int.
  rewrite StructFacts.in_range_l_len by assumption.
  now rewrite (map_pack_field_ok s Hs).
Qed.

Lemma len_field_bytes (f : field) :
  len (field_bytes f)
  = 8 + match snd f with None => 0 | Some y => len y end.
Proof.
  destruct f as [t [y |]]; unfold field_bytes; cbn [fst snd];
    rewrite !len_app, !StructFacts.len_be_bytes; [lia | reflexivity].
Qed.

(** One iteration of the loop on a field that [record_pack] wrote. *)
Lemma record_field_packed (f : field) (pre post : bytes) :
  field_ok f = true ->
  record_field (pre ++ field_bytes f ++ post) (len pre)
  = Ok (f, len pre + len (field_bytes f)).
Proof.
  intros Hf. rewrite len_field_bytes.
  destruct f as [t y]. unfold field_ok in Hf. cbn [fst snd] in *.
  apply andb_true_iff in Hf as [Ht Hy].
  unfold record_field, field_bytes. cbn [fst snd].
  set (payload := match y with
                  | None => null_sequence
                  | Some b => Struct.be_bytes 4 (len b) ++ b
                  end).
  rewrite <- app_assoc.
  rewrite (slice_at pre (Struct.be_bytes 4 t) (payload ++ post))
    by (try reflexivity; now rewrite StructFacts.len_be_bytes).
  rewrite (oid_unpack_be4 t Ht). cbn [bind].
  destruct y as [y |]; subst payload.
  - rewrite <- app_assoc.
    replace (pre ++ Struct.be_bytes 4 t ++ Struct.be_bytes 4 (len y) ++ y ++ post)
      with ((pre ++ Struct.be_bytes 4 t)
              ++ Struct.be_bytes 4 (len y) ++ (y ++ post))
      by (now rewrite <- !app_assoc).
    rewrite (slice_at (pre ++ Struct.be_bytes 4 t)
               (Struct.be_bytes 4 (len y)) (y ++ post))
      by (rewrite ?len_app, ?StructFacts.len_be_bytes; reflexivity).
    assert (Hnn : bytes_eqb (Struct.be_bytes 4 (len y)) null_sequence = false).
    { apply bytes_eqb_neq, be4_not_null.
      pose proof (len_nonneg y). apply StructFacts.in_range_l in Hy. lia. }
    rewrite Hnn, (long_unpack_be4 _ Hy). cbn [bind].
    replace ((pre ++ Struct.be_bytes 4 t)
               ++ Struct.be_bytes 4 (len y) ++ y ++ post)
      with ((pre ++ Struct.be_bytes 4 t ++ Struct.be_bytes 4 (len y))
              ++ y ++ post)
      by (now rewrite <- !app_assoc).
    rewrite (slice_at (pre ++ Struct.be_bytes 4 t ++ Struct.be_bytes 4 (len y))
               y post)
      by (rewrite ?len_app, ?StructFacts.len_be_bytes; lia).
    pose proof (len_nonneg y).
    destruct (Z.ltb_spec (len y) (-1)) as [? | _]; [lia |].
    rewrite Z.eqb_refl. cbn [orb negb].
    now replace (len pre + 4 + 4 + len y) with (len pre + (8 + len y)) by lia.
  - replace (pre ++ Struct.be_bytes 4 t ++ null_sequence ++ post)
      with ((pre ++ Struct.be_bytes 4 t) ++ null_sequence ++ post)
      by (now rewrite <- !app_assoc).
    rewrite (slice_at (pre ++ Struct.be_bytes 4 t) null_sequence post)
      by (rewrite ?len_app, ?StructFacts.len_be_bytes; reflexivity).
    change (bytes_eqb null_sequence null_sequence) with true. cbn match.
    now replace (len pre + 4 + 4) with (len pre + (8 + 0)) by lia.
Qed.

Lemma record_loop_packed (s : list field) (pre post : bytes) :
  forallb field_ok s = true ->
  record_loop (pre ++ List.concat (map field_bytes s) ++ post)
    (List.length s) (len pre)
  = (s, Ok (len pre + len (List.concat (map field_bytes s)))).
Proof.
  revert pre. induction s as [| f s IH]; intros pre Hs.
  - cbn. now rewrite Z.add_0_r.
  - cbn [forallb] in Hs. apply andb_true_iff in Hs as [Hf Hs].
    cbn [map List.concat List.length record_loop].
    rewrite <- app_assoc.
    rewrite (record_field_packed f pre _ Hf).
    replace (pre ++ field_bytes f ++ List.concat (map field_bytes s) ++ post)
      with ((pre ++ field_bytes f) ++ List.concat (map field_bytes s) ++ post)
      by (now rewrite <- app_assoc).
    rewrite <- len_app. rewrite (IH (pre ++ field_bytes f) Hs).
    rewrite !len_app. now rewrite Z.add_assoc.
Qed.

Lemma record_unpack_packed (s : list field) :
  len s <= 2 ^ 31 - 1 ->
  forallb field_ok s = true ->
  record_unpack (Struct.be_bytes 4 (len s) ++ List.concat (map field_bytes s))
  = (s, Finished).
Proof.
  intros Hlen Hs. unfold record_unpack.
  set (body := List.concat (map field_bytes s)).
  set (head := Struct.be_bytes 4 (len s)).
  assert (Hhead : slice (head ++ body) 0 4 = head).
  { apply (slice_at [] head body 0 4); [reflexivity |].
    subst head. now rewrite StructFacts.len_be_bytes. }
  rewrite Hhead. subst head.
  rewrite long_unpack_be4 by (now apply StructFacts.in_range_l_len).
  pose proof (record_loop_packed s (Struct.be_bytes 4 (len s)) [] Hs) as Hloop.
  rewrite app_nil_r, StructFacts.len_be_bytes in Hloop.
  change (Z.of_nat 4) with 4 in Hloop. fold body in Hloop.
  unfold len at 2. rewrite Nat2Z.id, Hloop.
  rewrite len_app, StructFacts.len_be_bytes.
  change (Z.of_nat 4) with 4. rewrite Z.sub_diag. reflexivity.
Qed.

(** C1, amended: a sequence of fewer than 2^31 pairs [(t, p)],
    where [t] is an unsigned 32-bit integer and [p] is [None] or a byte
    string whose length fits the signed 32-bit prefix, is packed without
    error, and consuming [record_unpack] on the result yields exactly the
    pairs, in order, and ends without error. *)
Theorem record_roundtrip (s : list field) :
  len s <= 2 ^ 31 - 1 ->
  forallb field_ok s = true ->
  exists data : bytes,
    record_pack s = Ok data /\ record_unpack data = (s, Finished).
Proof.
  intros Hlen Hs.
  exists (Struct.be_bytes 4 (len s) ++ List.concat (map field_bytes s)).
  split; [now apply record_pack_ok | now apply record_unpack_packed].
Qed.

Lemma record_roundtrip_witness :
  len sample_record <= 2 ^ 31 - 1
  /\ forallb field_ok sample_record = true
  /\ exists data : bytes,
       record_pack sample_record = Ok data
       /\ record_unpack data = (sample_record, Finished).
Proof.
  assert (H1 : len sample_record <= 2 ^ 31 - 1) by (vm_compute; discriminate).
  assert (H2 : forallb field_ok sample_record = true) by reflexivity.
  split; [exact H1 |]. split; [exact H2 |].
  exact (record_roundtrip sample_record H1 H2).
Defined.

Lemma len_repeat {A : Type} (x : A) (n : nat) : len (repeat x n) = Z.of_nat n.
Proof. unfold len. now rewrite repeat_length. Qed.

Lemma record_pack_count_out_of_range (s : list field) :
  2 ^ 31 <= len s -> record_pack s = Raise StructError.
Proof.
  intros H. unfold record_pack, long_pack, Struct.pack_int.
  destruct (Struct.in_range Struct.fmt_l (len s)) eqn:E; [| reflexivity].
  apply StructFacts.in_range_l in E. lia.
Qed.

Lemma repeated_null_fields_ok (n : nat) :
  forallb field_ok (repeat (0, None) n) = true.
Proof.
  apply forallb_forall. intros f Hin.
  apply repeat_spec in Hin. now subst f.
Qed.

Lemma record_pack_repeat_out_of_range (f : field) (n : nat) :
  2 ^ 31 <= Z.of_nat n -> record_pack (repeat f n) = Raise StructError.
Proof.
  intros H. apply record_pack_count_out_of_range. now rewrite len_repeat.
Qed.

(** Counterexample for C1: the sequence of 2^31 pairs [(0, None)], each of
    them an unsigned 32-bit type with a NULL payload, has a count that does
    not fit the signed 32-bit prefix, and [record_pack] raises. *)
Lemma record_pack_oversized_raises :
  forallb field_ok (repeat (0, None) (Z.to_nat (2 ^ 31))) = true
  /\ record_pack (repeat (0, None) (Z.to_nat (2 ^ 31))) = Raise StructError.
Proof.
  split.
  - exact (repeated_null_fields_ok (Z.to_nat (2 ^ 31))).
  - apply (record_pack_repeat_out_of_range (0, None) (Z.to_nat (2 ^ 31))).
    rewrite Z2Nat.id; [apply Z.le_refl | apply Z.pow_nonneg; lia].
Qed.

Lemma unpack_int_ok_len (f : Struct.int_format) (b : bytes) (v : Z) :
  Struct.unpack_int f b = Ok v -> Z.of_nat (Struct.width f) <= len b.
Proof.
  unfold Struct.unpack_int.
  destruct (Z.ltb_spec (len b) (Z.of_nat (Struct.width f)));
    [discriminate | intros _; assumption].
Qed.

Lemma unpack_int_long_enough (f : Struct.int_format) (b : bytes) :
  Z.of_nat (Struct.width f) <= len b ->
  exists v, Struct.unpack_int f b = Ok v.
Proof.
  intros H. unfold Struct.unpack_int.
  destruct (Z.ltb_spec (len b) (Z.of_nat (Struct.width f))); [lia | eauto].
Qed.

(** A successful iteration moves the offset past the two prefixes. *)
Lemma record_field_advances (data : bytes) (off : Z) (f : field) (off' : Z) :
  record_field data off = Ok (f, off') -> off + 8 <= off'.
Proof.
  unfold record_field.
  destruct (oid_unpack (slice data off (off + 4))) as [typid | e];
    cbn [bind]; [| discriminate].
  destruct (bytes_eqb (slice data (off + 4) (off + 4 + 4)) null_sequence).
  - intros [= _ <-]. lia.
  - destruct (long_unpack (slice data (off + 4) (off + 4 + 4)))
      as [size | e]; cbn [bind]; [| discriminate].
    set (att := slice data (off + 4 + 4) (off + 4 + 4 + size)).
    destruct (Z.ltb_spec size (-1)); cbn [orb]; [discriminate |].
    destruct (Z.eqb_spec (len att) size); cbn [negb]; [| discriminate].
    intros [= _ <-]. pose proof (len_nonneg att). lia.
Qed.

Lemma record_loop_advances (data : bytes) (k : nat) :
  forall (off : Z) (fs : list field) (off' : Z),
    record_loop data k off = (fs, Ok off') -> off <= off'.
Proof.
  induction k as [| k IH]; intros off fs off'; cbn [record_loop].
  - intros [= _ <-]. lia.
  - destruct (record_field data off) as [[f o] | e] eqn:Ef; [| discriminate].
    destruct (record_loop data k o) as [fs' r] eqn:El.
    intros [= _ ->]. apply IH in El. apply record_field_advances in Ef. lia.
Qed.

(** Running [k + m] iterations is running [k] of them and then [m] more. *)
Lemma record_loop_app (data : bytes) (k m : nat) :
  forall off : Z,
    record_loop data (k + m) off
    = match record_loop data k off with
      | (fs, Ok off') =>
          (fs ++ fst (record_loop data m off'), snd (record_loop data m off'))
      | (fs, Raise e) => (fs, Raise e)
      end.
Proof.
  induction k as [| k IH]; intros off; cbn [Nat.add record_loop].
  - now destruct (record_loop data m off).
  - destruct (record_field data off) as [[f o] | e]; [| reflexivity].
    rewrite IH. destruct (record_loop data k o) as [fs [o' | e]]; reflexivity.
Qed.

(** The iteration that meets a length prefix larger than what is left. *)
Lemma record_field_insufficient (data : bytes) (off size : Z) :
  0 <= off ->
  long_unpack (slice data (off + 4) (off + 8)) = Ok size ->
  len data - (off + 8) < size ->
  record_field data off
  = Raise (ValueError "insufficient data left in message").
Proof.
  intros Hoff Hsize Hshort.
  assert (Hlen : off + 8 <= len data).
  { apply unpack_int_ok_len in Hsize.
    replace (off + 8) with (off + 4 + 4) in Hsize by lia.
    rewrite len_slice_nonneg in Hsize by lia.
    change (Z.of_nat (Struct.width Struct.fmt_l)) with 4 in Hsize. lia. }
  unfold record_field.
  destruct (unpack_int_long_enough Struct.fmt_L (slice data off (off + 4)))
    as [typid Htypid].
  { rewrite len_slice_nonneg by lia.
    change (Z.of_nat (Struct.width Struct.fmt_L)) with 4. lia. }
  unfold oid_unpack, ulong_unpack. rewrite Htypid. cbn [bind].
  replace (off + 4 + 4) with (off + 8) by lia.
  destruct (bytes_eqb (slice data (off + 4) (off + 8)) null_sequence) eqn:Enull.
  - apply bytes_eqb_eq in Enull. rewrite Enull, long_unpack_null in Hsize.
    injection Hsize as <-. lia.
  - rewrite Hsize. cbn [bind].
    destruct (Z.eqb_spec (len (slice data (off + 8) (off + 8 + size))) size)
      as [Heq | _]; cbn [negb]; [| now rewrite orb_true_r].
    rewrite len_slice_nonneg in Heq by lia. lia.
Qed.

(** C5: consuming [record_unpack] ends with the error "insufficient data left
    in message" when, after [k] fields read without error, the next field
    declares a payload longer than what is left of the buffer; and it ends
    with the error "extra data ... at end of record" when all the declared
    fields were read and bytes remain. *)
Theorem record_unpack_rejects (data : bytes) (columns : Z) :
  long_unpack (slice data 0 4) = Ok columns ->
  (forall (k : nat) (fs : list field) (off size : Z),
      Z.of_nat k < columns ->
      record_loop data k 4 = (fs, Ok off) ->
      long_unpack (slice data (off + 4) (off + 8)) = Ok size ->
      len data - (off + 8) < size ->
      record_unpack data
      = (fs, Raised (ValueError "insufficient data left in message")))
  /\ (forall (fs : list field) (off : Z),
         record_loop data (Z.to_nat columns) 4 = (fs, Ok off) ->
         off < len data ->
         record_unpack data
         = (fs, Raised (ValueError ("extra data, " ++ decimal (len data)
                                    ++ " octets, at end of record")))).
Proof.
  intros Hcols. split.
  - intros k fs off size Hk Hloop Hsize Hshort.
    pose proof (record_loop_advances _ _ _ _ _ Hloop) as Hoff.
    pose proof (record_field_insufficient data off size ltac:(lia) Hsize Hshort)
      as Hfield.
    unfold record_unpack. rewrite Hcols.
    replace (Z.to_nat columns) with (k + S (Z.to_nat columns - k - 1))%nat
      by lia.
    rewrite record_loop_app, Hloop. cbn [record_loop].
    rewrite Hfield. cbn [fst snd]. now rewrite app_nil_r.
  - intros fs off Hloop Hextra.
    unfold record_unpack. rewrite Hcols, Hloop.
    destruct (Z.eqb_spec (len data - off) 0) as [? | _]; [lia | reflexivity].
Qed.

Lemma record_unpack_rejects_witness :
  record_unpack record_truncated_field
  = ([], Raised (ValueError "insufficient data left in message"))
  /\ record_unpack record_trailing_byte
     = ([(23, Some ["001"; "002"]%byte)],
        Raised (ValueError "extra data, 15 octets, at end of record")).
Proof.
  split.
  - apply (proj1 (record_unpack_rejects record_truncated_field 1 eq_refl)
             0%nat [] 4 5); reflexivity.
  - apply (proj2 (record_unpack_rejects record_trailing_byte 1 eq_refl)
             [(23, Some ["001"; "002"]%byte)] 14); reflexivity.
Defined.

(** ** Fields of any integer format *)

Module FieldFacts.

Import Struct.

Lemma bits_pos (f : int_format) : (0 < width f)%nat -> 8 <= bits f.
Proof. unfold bits. lia. Qed.

Lemma pow_bits_split (f : int_format) :
  (0 < width f)%nat -> 2 ^ bits f = 2 * 2 ^ (bits f - 1).
Proof.
  intros H. pose proof (bits_pos f H).
  replace (bits f) with (1 + (bits f - 1)) at 1 by lia.
  rewrite Z.pow_add_r by lia. reflexivity.
Qed.

Lemma in_range_bounds (f : int_format) (v : Z) :
  in_range f v = true <-> min_value f <= v <= max_value f.
Proof. unfold in_range. rewrite andb_true_iff, !Z.leb_le. tauto. Qed.

(** A value in the range of its format is decoded from its encoding. *)
Lemma decode_pack (f : int_format) (v : Z) :
  (0 < width f)%nat ->
  in_range f v = true ->
  decode_int f (be_bytes (width f) v) = v.
Proof.
  intros Hw Hv. apply in_range_bounds in Hv.
  unfold decode_int. rewrite StructFacts.be_value_be_bytes. fold (bits f).
  unfold min_value, max_value in Hv.
  rewrite (pow_bits_split f Hw) in *.
  set (H := 2 ^ (bits f - 1)) in *.
  assert (HH : 0 < H)
    by (apply Z.pow_pos_nonneg; pose proof (bits_pos f Hw); lia).
  destruct (signed f); cbn [andb].
  - destruct (Z.lt_ge_cases v 0) as [Hneg | Hpos].
    + rewrite <- (Z.mod_unique v (2 * H) (-1) (v + 2 * H)) by lia.
      destruct (Z.leb_spec H (v + 2 * H)); lia.
    + rewrite Z.mod_small by lia.
      destruct (Z.leb_spec H v); lia.
  - rewrite Z.mod_small; lia.
Qed.

Lemma be_value_app (a b : bytes) :
  be_value (a ++ b) = be_value a * 2 ^ (8 * len b) + be_value b.
Proof.
  unfold be_value. rewrite fold_left_app.
  generalize (fold_left (fun acc x => acc * 256 + Z_of_byte x) a 0).
  induction b as [| x b IH]; intros acc.
  - cbn. lia.
  - cbn [fold_left]. rewrite IH, (IH (0 * 256 + Z_of_byte x)).
    rewrite len_cons.
    replace (8 * (1 + len b)) with (8 + 8 * len b) by lia.
    rewrite Z.pow_add_r by (pose proof (len_nonneg b); lia).
    change (2 ^ 8) with 256. ring.
Qed.

Lemma be_value_cons (x : byte) (b : bytes) :
  be_value (x :: b) = Z_of_byte x * 2 ^ (8 * len b) + be_value b.
Proof.
  change (x :: b) with ([x] ++ b). rewrite be_value_app.
  unfold be_value at 1. cbn [fold_left]. lia.
Qed.

Lemma Z_of_byte_inj (x y : byte) : Z_of_byte x = Z_of_byte y -> x = y.
Proof.
  intros H. rewrite <- (byte_of_Z_of_byte x), <- (byte_of_Z_of_byte y).
  now rewrite H.
Qed.

(** Byte strings of one length with one value are equal. *)
Lemma be_value_inj (a b : bytes) :
  List.length a = List.length b -> be_value a = be_value b -> a = b.
Proof.
  revert b. induction a as [| x a IH]; intros [| y b] Hlen Hval;
    try discriminate; [reflexivity |].
  injection Hlen as Hlen.
  rewrite !be_value_cons in Hval.
  assert (Hl : len a = len b) by (unfold len; now rewrite Hlen).
  rewrite Hl in Hval.
  pose proof (StructFacts.be_value_range a) as Ra. rewrite Hl in Ra.
  pose proof (StructFacts.be_value_range b) as Rb.
  set (P := 2 ^ (8 * len b)) in *.
  assert (Hx : Z_of_byte x = Z_of_byte y) by nia.
  rewrite (Z_of_byte_inj x y Hx) in *.
  f_equal. apply IH; [assumption | lia].
Qed.

(** Encoding the decoded value gives the bytes back. *)
Lemma be_bytes_decode (f : int_format) (b : bytes) :
  List.length b = width f -> be_bytes (width f) (decode_int f b) = b.
Proof.
  intros Hlen. apply be_value_inj.
  - now rewrite StructFacts.length_be_bytes.
  - rewrite StructFacts.be_value_be_bytes. fold (bits f).
    pose proof (StructFacts.be_value_range b) as R.
    unfold len in R. rewrite Hlen in R. fold (bits f) in R.
    unfold decode_int.
    destruct (signed f && (2 ^ (bits f - 1) <=? be_value b)).
    + rewrite <- (Z.mod_unique (be_value b - 2 ^ bits f) (2 ^ bits f) (-1)
                    (be_value b)); lia.
    + apply Z.mod_small. lia.
Qed.

(** A decoded value is in the range of its format. *)
Lemma decode_in_range (f : int_format) (b : bytes) :
  (0 < width f)%nat ->
  List.length b = width f -> in_range f (decode_int f b) = true.
Proof.
  intros Hw Hlen. apply in_range_bounds.
  pose proof (StructFacts.be_value_range b) as R.
  unfold len in R. rewrite Hlen in R. fold (bits f) in R.
  unfold decode_int, min_value, max_value.
  rewrite (pow_bits_split f Hw) in *.
  set (H := 2 ^ (bits f - 1)) in *.
  destruct (signed f); cbn [andb].
  - destruct (Z.leb_spec H (be_value b)); lia.
  - lia.
Qed.

Lemma pack_ints_ok (f : int_format) (l : list Z) :
  forallb (in_range f) l = true ->
  pack_ints f l = Ok (List.concat (map (be_bytes (width f)) l)).
Proof.
  unfold pack_ints. intros H.
  assert (Hm : map_result (pack_int f) l = Ok (map (be_bytes (width f)) l)).
  { induction l as [| v l IH]; [reflexivity |].
    cbn [forallb] in H. apply andb_true_iff in H as [Hv Hl].
    cbn [map_result map]. unfold pack_int at 1. rewrite Hv. cbn [bind].
    now rewrite (IH Hl). }
  now rewrite Hm.
Qed.

Lemma pack_ints_out_of_range (f : int_format) (l : list Z) :
  forallb (in_range f) l = false -> pack_ints f l = Raise StructError.
Proof.
  unfold pack_ints. intros H.
  assert (Hm : map_result (pack_int f) l = Raise StructError).
  { induction l as [| v l IH]; [discriminate |].
    cbn [forallb] in H. cbn [map_result]. unfold pack_int at 1.
    destruct (in_range f v); cbn [andb bind] in *; [| reflexivity].
    now rewrite (IH H). }
  now rewrite Hm.
Qed.

Lemma len_packed_ints (w : nat) (l : list Z) :
  len (List.concat (map (be_bytes w) l)) = Z.of_nat w * len l.
Proof.
  induction l as [| v l IH]; [cbn; lia |].
  cbn [map List.concat]. rewrite len_app, IH, len_cons.
  rewrite StructFacts.len_be_bytes. lia.
Qed.

(** Reading back the integers that were packed one after the other. *)
Lemma decode_packed_ints (f : int_format) (l : list Z) (rest : bytes) :
  (0 < width f)%nat ->
  forallb (in_range f) l = true ->
  decode_ints f (List.length l)
    (List.concat (map (be_bytes (width f)) l) ++ rest)
  = l.
Proof.
  intros Hw. induction l as [| v l IH]; intros H; [reflexivity |].
  cbn [forallb] in H. apply andb_true_iff in H as [Hv Hl].
  cbn [map List.concat List.length decode_ints].
  rewrite <- app_assoc.
  rewrite firstn_app_exact, skipn_app_exact
    by apply StructFacts.length_be_bytes.
  now rewrite (decode_pack f v Hw Hv), (IH Hl).
Qed.

Lemma length_decode_ints (f : int_format) (n : nat) (b : bytes) :
  List.length (decode_ints f n b) = n.
Proof.
  revert b. induction n as [| n IH]; intros b; cbn; [reflexivity |].
  now rewrite IH.
Qed.

End FieldFacts.

(** ** Network addresses: packing *)

Lemma bytes_of_ints_ok (l : list Z) :
  forallb (fun z => (0 <=? z) && (z <? 256)) l = true ->
  bytes_of_ints l = Ok (map byte_of_Z l).
Proof.
  unfold bytes_of_ints.
  induction l as [| z l IH]; [reflexivity |].
  cbn [forallb map_result map]. intros H.
  apply andb_true_iff in H as [Hz Hl].
  rewrite Hz. cbn [bind]. now rewrite (IH Hl).
Qed.

Lemma bytes_of_ints_out_of_range (l : list Z) :
  forallb (fun z => (0 <=? z) && (z <? 256)) l = false ->
  bytes_of_ints l = Raise (ValueError "bytes must be in range(0, 256)").
Proof.
  unfold bytes_of_ints.
  induction l as [| z l IH]; [discriminate |].
  cbn [forallb map_result]. intros H.
  destruct ((0 <=? z) && (z <? 256)); cbn [andb bind] in *; [| reflexivity].
  now rewrite (IH H).
Qed.

Lemma octet_spec (z : Z) : octet z = true <-> 0 <= z <= 255.
Proof. unfold octet. rewrite andb_true_iff, Z.leb_le, Z.ltb_lt. lia. Qed.

Lemma net_pack_octets (family mask : Z) (data : bytes) :
  octet family && octet mask && octet (len data) = true ->
  net_pack (family, mask, data)
  = Ok (byte_of_Z family :: byte_of_Z mask :: "001"%byte
          :: byte_of_Z (len data) :: data).
Proof.
  unfold net_pack. intros H.
  apply andb_true_iff in H as [H Hd]. apply andb_true_iff in H as [Hf Hm].
  rewrite bytes_of_ints_ok; [reflexivity |].
  cbn [forallb]. fold (octet family) (octet mask) (octet (len data)).
  now rewrite Hf, Hm, Hd.
Qed.

(** X1: [net_pack] returns exactly when the family, the mask and the length of
    the address are octets; otherwise [bytes] refuses the header and the
    call raises [ValueError]. *)
Theorem net_pack_domain (family mask : Z) (data : bytes) :
  (octet family && octet mask && octet (len data) = true ->
   net_pack (family, mask, data)
   = Ok (byte_of_Z family :: byte_of_Z mask :: "001"%byte
           :: byte_of_Z (len data) :: data))
  /\ (octet family && octet mask && octet (len data) = false ->
      net_pack (family, mask, data)
      = Raise (ValueError "bytes must be in range(0, 256)")).
Proof.
  split; intros H.
  - now apply net_pack_octets.
  - unfold net_pack. rewrite bytes_of_ints_out_of_range; [reflexivity |].
    cbn [forallb]. fold (octet family) (octet mask) (octet (len data)).
    destruct (octet family), (octet mask), (octet (len data));
      cbn in *; congruence.
Qed.

Lemma net_pack_domain_witness :
  octet 2 && octet 32 && octet (len ["127"; "000"; "000"; "001"]%byte) = true
  /\ net_pack (2, 32, ["127"; "000"; "000"; "001"]%byte) = Ok inet_loopback
  /\ octet 2 && octet 256 && octet (len (@nil byte)) = false
  /\ net_pack (2, 256, [])
     = Raise (ValueError "bytes must be in range(0, 256)").
Proof.
  split; [reflexivity |].
  split; [exact (proj1 (net_pack_domain 2 32
                         ["127"; "000"; "000"; "001"]%byte) eq_refl) |].
  split; [reflexivity |].
  exact (proj2 (net_pack_domain 2 256 []) eq_refl).
Defined.

(** X2: What [net_pack] writes, [net_unpack] reads back: the round trip holds
    for every family and mask that are octets and every address of at most
    255 bytes. *)
Theorem net_roundtrip (family mask : Z) (data : bytes) :
  0 <= family <= 255 -> 0 <= mask <= 255 -> len data <= 255 ->
  exists packed : bytes,
    net_pack (family, mask, data) = Ok packed
    /\ net_unpack packed = Ok (family, mask, data).
Proof.
  intros Hf Hm Hd. pose proof (len_nonneg data) as Hpos.
  eexists. split.
  - apply net_pack_octets.
    apply andb_true_iff; split; [apply andb_true_iff; split |];
      apply octet_spec; lia.
  - rewrite net_unpack_header.
    rewrite !Z_of_byte_of_Z by lia. now rewrite Z.eqb_refl.
Qed.

Lemma net_roundtrip_witness :
  exists packed : bytes,
    net_pack (2, 32, ["127"; "000"; "000"; "001"]%byte) = Ok packed
    /\ net_unpack packed = Ok (2, 32, ["127"; "000"; "000"; "001"]%byte).
Proof.
  apply net_roundtrip; [lia | lia | vm_compute; discriminate].
Defined.

(** X3: Packing what [net_unpack] returned gives the buffer back with the
    [is_cidr] byte set to 1, whatever it was. *)
Theorem net_unpack_then_pack (b0 b1 b2 b3 : byte) (rd : bytes)
    (r : Z * Z * bytes) :
  net_unpack (b0 :: b1 :: b2 :: b3 :: rd) = Ok r ->
  net_pack r = Ok (b0 :: b1 :: "001"%byte :: b3 :: rd).
Proof.
  rewrite net_unpack_header.
  destruct (Z.eqb_spec (len rd) (Z_of_byte b3)) as [Hlen | _];
    [| discriminate].
  intros [= <-].
  pose proof (Z_of_byte_range b0). pose proof (Z_of_byte_range b1).
  pose proof (Z_of_byte_range b3).
  rewrite net_pack_octets.
  - rewrite Hlen. now rewrite !byte_of_Z_of_byte.
  - apply andb_true_iff; split; [apply andb_true_iff; split |];
      apply octet_spec; lia.
Qed.

Lemma net_unpack_then_pack_witness :
  net_unpack inet_loopback_flag_cleared
  = Ok (2, 32, ["127"; "000"; "000"; "001"]%byte)
  /\ net_pack (2, 32, ["127"; "000"; "000"; "001"]%byte) = Ok inet_loopback.
Proof.
  split; [reflexivity |].
  exact (net_unpack_then_pack "002" "032" "000" "004"
           ["127"; "000"; "000"; "001"]%byte _ eq_refl).
Defined.

(** ** Bit strings *)

Lemma slice_prefix {A : Type} (head rest : list A) (n : Z) :
  n = len head -> slice (head ++ rest) 0 n = head.
Proof. intros ->. exact (slice_middle [] head rest). Qed.

(** X4: [varbit_unpack] reads back what [varbit_pack] wrote, for every bit count
    that fits the signed 32-bit prefix and every payload, whatever the
    relation between the two. *)
Theorem varbit_roundtrip (nbits : Z) (data : bytes) :
  - 2 ^ 31 <= nbits <= 2 ^ 31 - 1 ->
  exists packed : bytes,
    varbit_pack (nbits, data) = Ok packed
    /\ varbit_unpack packed = Ok (nbits, data).
Proof.
  intros Hb. apply StructFacts.in_range_l in Hb.
  exists (Struct.be_bytes 4 nbits ++ data). split.
  - unfold varbit_pack, long_pack, Struct.pack_int. cbn [fst snd].
    now rewrite Hb.
  - unfold varbit_unpack.
    rewrite slice_prefix by (now rewrite StructFacts.len_be_bytes).
    rewrite (long_unpack_be4 _ Hb). cbn [bind].
    rewrite slice_from_nonneg by lia. change (Z.to_nat 4) with 4%nat.
    now rewrite skipn_app_exact by apply StructFacts.length_be_bytes.
Qed.

Lemma varbit_roundtrip_witness :
  - 2 ^ 31 <= 1 <= 2 ^ 31 - 1
  /\ exists packed : bytes,
       varbit_pack (1, ["000"]%byte) = Ok packed
       /\ varbit_unpack packed = Ok (1, ["000"]%byte).
Proof.
  assert (H : - 2 ^ 31 <= 1 <= 2 ^ 31 - 1) by lia.
  split; [exact H | exact (varbit_roundtrip 1 ["000"]%byte H)].
Defined.

(** X5: Every buffer of at least four bytes is accepted by [varbit_unpack], and
    packing the result gives the buffer back; a shorter buffer raises. *)
Theorem varbit_unpack_then_pack (data : bytes) :
  (4 <= len data ->
   exists r, varbit_unpack data = Ok r /\ varbit_pack r = Ok data)
  /\ (len data < 4 -> varbit_unpack data = Raise StructError).
Proof.
  split; intros Hlen.
  - exists (Struct.decode_int Struct.fmt_l (firstn 4 data), skipn 4 data).
    unfold varbit_unpack.
    rewrite slice_nonneg, slice_from_nonneg by lia.
    change (Z.to_nat (4 - 0)) with 4%nat. change (Z.to_nat 0) with 0%nat.
    change (Z.to_nat 4) with 4%nat. rewrite skipn_O.
    assert (Hl : List.length (firstn 4 data) = 4%nat)
      by (rewrite length_firstn; unfold len in Hlen; lia).
    unfold long_unpack.
    rewrite (StructFacts.unpack_int_exact Struct.fmt_l _ Hl). cbn [bind].
    split; [reflexivity |].
    unfold varbit_pack, long_pack, Struct.pack_int. cbn [fst snd].
    rewrite (FieldFacts.decode_in_range Struct.fmt_l _ ltac:(cbn; lia) Hl).
    cbn [bind].
    rewrite (FieldFacts.be_bytes_decode Struct.fmt_l _ Hl).
    now rewrite firstn_skipn.
  - unfold varbit_unpack, long_unpack.
    rewrite StructFacts.unpack_int_short; [reflexivity |].
    pose proof (len_nonneg data).
    rewrite slice_nonneg by lia. rewrite length_firstn, length_skipn.
    unfold len in *. cbn [Struct.width Struct.fmt_l]. lia.
Qed.

Lemma varbit_unpack_then_pack_witness :
  4 <= len inet_loopback
  /\ exists r, varbit_unpack inet_loopback = Ok r
               /\ varbit_pack r = Ok inet_loopback.
Proof.
  assert (H : 4 <= len inet_loopback) by (vm_compute; discriminate).
  split; [exact H | exact (proj1 (varbit_unpack_then_pack inet_loopback) H)].
Defined.

(** ** Times and intervals on 64-bit integers *)

Lemma in_range_q (v : Z) :
  Struct.in_range Struct.fmt_q v = true <-> - 2 ^ 63 <= v <= 2 ^ 63 - 1.
Proof.
  rewrite FieldFacts.in_range_bounds.
  change (Struct.min_value Struct.fmt_q) with (- 2 ^ 63).
  change (Struct.max_value Struct.fmt_q) with (2 ^ 63 - 1).
  tauto.
Qed.

Lemma decode_pack_q (v : Z) :
  Struct.in_range Struct.fmt_q v = true ->
  Struct.decode_int Struct.fmt_q (Struct.be_bytes 8 v) = v.
Proof.
  intros H. apply (FieldFacts.decode_pack Struct.fmt_q v); [cbn; lia | exact H].
Qed.

Lemma firstn_exact {A : Type} (n : nat) (l : list A) :
  List.length l = n -> firstn n l = l.
Proof. intros <-. apply firstn_all. Qed.

Lemma ql_roundtrip (q l : Z) :
  Struct.in_range Struct.fmt_q q = true ->
  Struct.in_range Struct.fmt_l l = true ->
  ql_pack (q, l) = Ok (Struct.be_bytes 8 q ++ Struct.be_bytes 4 l)
  /\ ql_unpack (Struct.be_bytes 8 q ++ Struct.be_bytes 4 l) = Ok (q, l).
Proof.
  intros Hq Hl. split.
  - unfold ql_pack, Struct.pack_int. now rewrite Hq, Hl.
  - unfold ql_unpack.
    rewrite len_app, !StructFacts.len_be_bytes.
    change (Z.of_nat 8 + Z.of_nat 4 <? 12) with false. cbn match.
    rewrite firstn_app_exact, skipn_app_exact
      by apply StructFacts.length_be_bytes.
    rewrite firstn_exact by apply StructFacts.length_be_bytes.
    now rewrite (decode_pack_q q Hq), (StructFacts.decode_pack_l l Hl).
Qed.

Lemma qll_roundtrip (q l1 l2 : Z) :
  Struct.in_range Struct.fmt_q q = true ->
  Struct.in_range Struct.fmt_l l1 = true ->
  Struct.in_range Struct.fmt_l l2 = true ->
  qll_pack (q, l1, l2)
  = Ok (Struct.be_bytes 8 q ++ Struct.be_bytes 4 l1 ++ Struct.be_bytes 4 l2)
  /\ qll_unpack (Struct.be_bytes 8 q ++ Struct.be_bytes 4 l1
                 ++ Struct.be_bytes 4 l2)
     = Ok (q, l1, l2).
Proof.
  intros Hq Hl1 Hl2. split.
  - unfold qll_pack, Struct.pack_int. now rewrite Hq, Hl1, Hl2.
  - unfold qll_unpack.
    rewrite !len_app, !StructFacts.len_be_bytes.
    change (Z.of_nat 8 + (Z.of_nat 4 + Z.of_nat 4) <? 16) with false.
    cbn match.
    rewrite firstn_app_exact by apply StructFacts.length_be_bytes.
    rewrite (skipn_app_exact 8) by apply StructFacts.length_be_bytes.
    rewrite firstn_app_exact by apply StructFacts.length_be_bytes.
    replace (Struct.be_bytes 8 q ++ Struct.be_bytes 4 l1 ++ Struct.be_bytes 4 l2)
      with ((Struct.be_bytes 8 q ++ Struct.be_bytes 4 l1)
              ++ Struct.be_bytes 4 l2)
      by (now rewrite <- app_assoc).
    rewrite (skipn_app_exact 12)
      by (rewrite length_app, !StructFacts.length_be_bytes; reflexivity).
    rewrite firstn_exact by apply StructFacts.length_be_bytes.
    now rewrite (decode_pack_q q Hq), (StructFacts.decode_pack_l l1 Hl1),
      (StructFacts.decode_pack_l l2 Hl2).
Qed.

Lemma mktime64_mktimetuple64 (ts : Z) :
  mktime64 (mktimetuple64 ts) = ts /\ 0 <= snd (mktimetuple64 ts) < 1000000.
Proof.
  unfold mktime64, mktimetuple64. cbn [fst snd].
  pose proof (Z.mod_pos_bound ts 1000000 ltac:(lia)) as Hm.
  pose proof (Z.div_mod ts 1000000 ltac:(lia)) as Hd.
  lia.
Qed.

Lemma mktimetuple64_carries (seconds microseconds : Z) :
  mktimetuple64 (mktime64 (seconds, microseconds))
  = (seconds + microseconds / 1000000, microseconds mod 1000000).
Proof.
  unfold mktime64, mktimetuple64. cbn [fst snd].
  rewrite Z.add_comm, Z.div_add by lia.
  rewrite (Z.add_comm (microseconds / 1000000)).
  f_equal. pose proof (Z.div_mod microseconds 1000000 ltac:(lia)). lia.
Qed.

(** X6: Splitting a count of microseconds and joining the pair again is the
    identity, and the microsecond part of a split is always within one
    second, also for a negative count. *)
Theorem mktimetuple64_splits (ts : Z) :
  mktime64 (mktimetuple64 ts) = ts
  /\ 0 <= snd (mktimetuple64 ts) < 1000000
  /\ fst (mktimetuple64 ts) * 1000000 <= ts.
Proof.
  unfold mktime64, mktimetuple64. cbn [fst snd].
  pose proof (Z.mod_pos_bound ts 1000000 ltac:(lia)) as Hm.
  pose proof (Z.div_mod ts 1000000 ltac:(lia)) as Hd.
  lia.
Qed.

(** X7: Joining a pair and splitting it again normalises the pair: whole seconds
    held in the microsecond part are carried over.  The pair comes back
    unchanged exactly when its microseconds are within one second. *)
Theorem mktime64_normalises (seconds microseconds : Z) :
  mktimetuple64 (mktime64 (seconds, microseconds))
  = (seconds + microseconds / 1000000, microseconds mod 1000000)
  /\ (mktimetuple64 (mktime64 (seconds, microseconds))
      = (seconds, microseconds)
      <-> 0 <= microseconds < 1000000).
Proof.
  pose proof (mktimetuple64_carries seconds microseconds) as H.
  split; [exact H |]. rewrite H. split.
  - intros [= _ Hm]. rewrite <- Hm. apply Z.mod_pos_bound. lia.
  - intros Hr. now rewrite Z.div_small, Z.mod_small, Z.add_0_r.
Qed.

Lemma mktimetuple64_mktime64 (seconds microseconds : Z) :
  0 <= microseconds < 1000000 ->
  mktimetuple64 (mktime64 (seconds, microseconds)) = (seconds, microseconds).
Proof.
  intros H. rewrite mktimetuple64_carries.
  now rewrite Z.div_small, Z.mod_small, Z.add_0_r.
Qed.

(** X8: [interval64_unpack] reads back what [interval64_pack] wrote, when the
    month and the day fit 32 bits, the time in microseconds fits 64 bits and
    the microsecond part is within one second. *)
Theorem interval64_roundtrip (month day seconds microseconds : Z) :
  - 2 ^ 31 <= month <= 2 ^ 31 - 1 ->
  - 2 ^ 31 <= day <= 2 ^ 31 - 1 ->
  - 2 ^ 63 <= seconds * 1000000 + microseconds <= 2 ^ 63 - 1 ->
  0 <= microseconds < 1000000 ->
  exists packed : bytes,
    interval64_pack (month, day, (seconds, microseconds)) = Ok packed
    /\ len packed = 16
    /\ interval64_unpack packed = Ok (month, day, (seconds, microseconds)).
Proof.
  intros Hm Hd Ht Hus.
  apply StructFacts.in_range_l in Hm. apply StructFacts.in_range_l in Hd.
  apply in_range_q in Ht.
  destruct (qll_roundtrip (mktime64 (seconds, microseconds)) day month
              Ht Hd Hm) as [Hpack Hunpack].
  eexists. split; [exact Hpack |]. split.
  - now rewrite !len_app, !StructFacts.len_be_bytes.
  - unfold interval64_unpack. rewrite Hunpack. cbn [bind].
    now rewrite mktimetuple64_mktime64.
Qed.

Lemma interval64_roundtrip_witness :
  exists packed : bytes,
    interval64_pack (2, 3, (-10, 999999)) = Ok packed
    /\ len packed = 16
    /\ interval64_unpack packed = Ok (2, 3, (-10, 999999)).
Proof. apply interval64_roundtrip; lia. Defined.

(** X9: Without a day component the days are folded into the seconds, exactly:
    unpacking what [interval64_noday_pack] wrote gives the month, the day 0
    and [seconds + day * 86400] seconds with the microseconds unchanged. *)
Theorem interval64_noday_folds_days (month day seconds microseconds : Z) :
  - 2 ^ 31 <= month <= 2 ^ 31 - 1 ->
  - 2 ^ 63 <= (seconds + day * 86400) * 1000000 + microseconds
            <= 2 ^ 63 - 1 ->
  0 <= microseconds < 1000000 ->
  exists packed : bytes,
    interval64_noday_pack (month, day, (seconds, microseconds)) = Ok packed
    /\ len packed = 12
    /\ interval64_noday_unpack packed
       = Ok (month, 0, (seconds + day * 86400, microseconds)).
Proof.
  intros Hm Ht Hus.
  apply StructFacts.in_range_l in Hm. apply in_range_q in Ht.
  destruct (ql_roundtrip (mktime64 (seconds + day * 86400, microseconds))
              month Ht Hm) as [Hpack Hunpack].
  exists (Struct.be_bytes 8 (mktime64 (seconds + day * 86400, microseconds))
          ++ Struct.be_bytes 4 month).
  split; [| split].
  - unfold interval64_noday_pack. cbn [fst snd].
    destruct (Z.eqb_spec day 0) as [-> | Hday]; cbn [negb].
    + change (0 * 86400) with 0 in Hpack |- *.
      rewrite Z.add_0_r in Hpack |- *. exact Hpack.
    + replace (day * 24 * 60 * 60) with (day * 86400) by lia. exact Hpack.
  - now rewrite !len_app, !StructFacts.len_be_bytes.
  - unfold interval64_noday_unpack. rewrite Hunpack. cbn [bind].
    now rewrite mktimetuple64_mktime64.
Qed.

Lemma interval64_noday_folds_days_witness :
  exists packed : bytes,
    interval64_noday_pack (2, 3, (10, 0)) = Ok packed
    /\ len packed = 12
    /\ interval64_noday_unpack packed = Ok (2, 0, (10 + 3 * 86400, 0)).
Proof. apply interval64_noday_folds_days; lia. Defined.

(** X10: [timetz64_unpack] reads back what [timetz64_pack] wrote, when the
    offset fits 32 bits, the time in microseconds fits 64 bits and the
    microsecond part is within one second. *)
Theorem timetz64_roundtrip (seconds microseconds tz_offset : Z) :
  - 2 ^ 31 <= tz_offset <= 2 ^ 31 - 1 ->
  - 2 ^ 63 <= seconds * 1000000 + microseconds <= 2 ^ 63 - 1 ->
  0 <= microseconds < 1000000 ->
  exists packed : bytes,
    timetz64_pack ((seconds, microseconds), tz_offset) = Ok packed
    /\ timetz64_unpack packed = Ok ((seconds, microseconds), tz_offset).
Proof.
  intros Hz Ht Hus.
  apply StructFacts.in_range_l in Hz. apply in_range_q in Ht.
  destruct (ql_roundtrip (mktime64 (seconds, microseconds)) tz_offset Ht Hz)
    as [Hpack Hunpack].
  eexists. split; [exact Hpack |].
  unfold timetz64_unpack. rewrite Hunpack. cbn [bind].
  now rewrite mktimetuple64_mktime64.
Qed.

Lemma timetz64_roundtrip_witness :
  exists packed : bytes,
    timetz64_pack ((43200, 500000), -3600) = Ok packed
    /\ timetz64_unpack packed = Ok ((43200, 500000), -3600).
Proof. apply timetz64_roundtrip; lia. Defined.

(** ** Numerics *)

Lemma in_range_h (v : Z) :
  Struct.in_range Struct.fmt_h v = true <-> - 2 ^ 15 <= v <= 2 ^ 15 - 1.
Proof.
  rewrite FieldFacts.in_range_bounds.
  change (Struct.min_value Struct.fmt_h) with (- 2 ^ 15).
  change (Struct.max_value Struct.fmt_h) with (2 ^ 15 - 1).
  tauto.
Qed.

(** Decoded integers are in the range of their format. *)
Lemma decoded_ints_in_range (f : Struct.int_format) (n : nat) :
  (0 < Struct.width f)%nat ->
  forall b : bytes,
    (n * Struct.width f <= List.length b)%nat ->
    forallb (Struct.in_range f) (Struct.decode_ints f n b) = true.
Proof.
  intros Hw. induction n as [| n IH]; intros b Hlen; [reflexivity |].
  cbn [Struct.decode_ints forallb]. apply andb_true_iff. split.
  - apply FieldFacts.decode_in_range; [assumption |].
    rewrite length_firstn. cbn in Hlen. lia.
  - apply IH. rewrite length_skipn. cbn in Hlen. lia.
Qed.

(** Packing the integers decoded from a buffer of the right size gives the
    buffer back. *)
Lemma packed_decoded_ints (f : Struct.int_format) (n : nat) :
  forall b : bytes,
    List.length b = (n * Struct.width f)%nat ->
    List.concat (map (Struct.be_bytes (Struct.width f))
                   (Struct.decode_ints f n b))
    = b.
Proof.
  induction n as [| n IH]; intros b Hlen.
  - cbn in *. now destruct b.
  - cbn [Struct.decode_ints map List.concat].
    rewrite FieldFacts.be_bytes_decode
      by (rewrite length_firstn; cbn in Hlen; lia).
    rewrite IH by (rewrite length_skipn; cbn in Hlen; lia).
    apply firstn_skipn.
Qed.

Lemma decode_packed_h (l : list Z) (rest : bytes) :
  forallb (Struct.in_range Struct.fmt_h) l = true ->
  Struct.decode_ints Struct.fmt_h (List.length l)
    (List.concat (map (Struct.be_bytes 2) l) ++ rest)
  = l.
Proof.
  intros H.
  apply (FieldFacts.decode_packed_ints Struct.fmt_h l rest); [cbn; lia | exact H].
Qed.

(** X12: [numeric_unpack] reads back what [numeric_pack] wrote, for a header of
    four shorts and any number of digits that are shorts. *)
Theorem numeric_roundtrip (header digits : list Z) :
  List.length header = 4%nat ->
  forallb (Struct.in_range Struct.fmt_h) header = true ->
  forallb (Struct.in_range Struct.fmt_h) digits = true ->
  exists packed : bytes,
    numeric_pack (header, digits) = Ok packed
    /\ len packed = 8 + 2 * len digits
    /\ numeric_unpack packed = Ok (header, digits).
Proof.
  intros Hlen Hh Hd.
  set (H := List.concat (map (Struct.be_bytes 2) header)).
  set (D := List.concat (map (Struct.be_bytes 2) digits)).
  assert (HlenH : List.length H = 8%nat).
  { pose proof (FieldFacts.len_packed_ints 2 header) as E. fold H in E.
    unfold len in E. lia. }
  assert (HlenD : len D = 2 * len digits)
    by apply (FieldFacts.len_packed_ints 2 digits).
  exists (H ++ D). split; [| split].
  - unfold numeric_pack, hhhh_pack. cbn [fst snd].
    unfold len. rewrite Hlen. cbn [Z.of_nat Z.eqb negb Pos.of_succ_nat].
    change (Z.of_nat 4 =? 4) with true. cbn [negb].
    rewrite (FieldFacts.pack_ints_ok Struct.fmt_h header Hh).
    cbn [bind].
    now rewrite (FieldFacts.pack_ints_ok Struct.fmt_h digits Hd).
  - rewrite len_app, HlenD. unfold len. lia.
  - unfold numeric_unpack.
    rewrite slice_to_nonneg by lia. change (Z.to_nat 8) with 8%nat.
    rewrite (firstn_app_exact 8 H D HlenH).
    unfold hhhh_unpack.
    replace (len H <? 8) with false
      by (unfold len; rewrite HlenH; reflexivity).
    assert (EH : Struct.decode_ints Struct.fmt_h 4 H = header).
    { rewrite <- Hlen, <- (app_nil_r H). now apply decode_packed_h. }
    rewrite EH. cbn [bind].
    unfold Struct.unpack_padded_ints.
    assert (Hn : (len (H ++ D) - 8) / 2 = len digits).
    { rewrite len_app, HlenD. unfold len at 1. rewrite HlenH.
      replace (Z.of_nat 8 + 2 * len digits - 8) with (len digits * 2) by lia.
      apply Z.div_mul. lia. }
    rewrite Hn. pose proof (len_nonneg digits) as Hpos.
    destruct (Z.ltb_spec (len digits) 0) as [? | _]; [lia |].
    replace (len (H ++ D)
             =? Z.of_nat 8 + len digits * Z.of_nat (Struct.width Struct.fmt_h))
      with true.
    2:{ symmetry. apply Z.eqb_eq. rewrite len_app, HlenD.
        unfold len at 1. rewrite HlenH. cbn [Struct.width Struct.fmt_h]. lia. }
    cbn [negb bind].
    rewrite (skipn_app_exact 8 H D HlenH).
    unfold len. rewrite Nat2Z.id.
    rewrite <- (app_nil_r D). unfold D.
    now rewrite (decode_packed_h digits [] Hd).
Qed.

Lemma numeric_roundtrip_witness :
  exists packed : bytes,
    numeric_pack ([2; 0; 16384; 3], [12; -3450]) = Ok packed
    /\ len packed = 8 + 2 * len [12; -3450]
    /\ numeric_unpack packed = Ok ([2; 0; 16384; 3], [12; -3450]).
Proof. apply numeric_roundtrip; reflexivity. Defined.

(** X13: [numeric_unpack] accepts exactly the buffers of at least eight bytes and
    even length; it then returns four header fields and one digit for every
    two bytes after the header, whatever the header says, and packing the
    result gives the buffer back. *)
Theorem numeric_unpack_accepts (data : bytes) :
  (8 <= len data /\ len data mod 2 = 0 ->
   exists header digits,
     numeric_unpack data = Ok (header, digits)
     /\ List.length header = 4%nat
     /\ len digits = (len data - 8) / 2
     /\ numeric_pack (header, digits) = Ok data)
  /\ (len data < 8 \/ len data mod 2 = 1 ->
      numeric_unpack data = Raise StructError).
Proof.
  split.
  - intros [H8 Heven].
    set (n := (len data - 8) / 2).
    assert (Hn : len data = 8 + n * 2).
    { unfold n. pose proof (Z.div_mod (len data - 8) 2 ltac:(lia)) as E.
      replace ((len data - 8) mod 2) with 0 in E.
      - lia.
      - replace (len data - 8) with (len data + (-4) * 2) by lia.
        now rewrite Z.mod_add by lia. }
    assert (Hnpos : 0 <= n) by lia.
    exists (Struct.decode_ints Struct.fmt_h 4 (firstn 8 data)),
      (Struct.decode_ints Struct.fmt_h (Z.to_nat n) (skipn 8 data)).
    assert (Hf : List.length (firstn 8 data) = 8%nat)
      by (rewrite length_firstn; unfold len in H8; lia).
    assert (Hs : List.length (skipn 8 data) = (Z.to_nat n * 2)%nat)
      by (rewrite length_skipn; unfold len in Hn; lia).
    split; [| split; [| split]].
    + unfold numeric_unpack.
      rewrite slice_to_nonneg by lia. change (Z.to_nat 8) with 8%nat.
      unfold hhhh_unpack.
      replace (len (firstn 8 data) <? 8) with false
        by (unfold len; rewrite Hf; reflexivity).
      cbn [bind]. unfold Struct.unpack_padded_ints. fold n.
      destruct (Z.ltb_spec n 0) as [? | _]; [lia |].
      replace (len data =? Z.of_nat 8 + n * Z.of_nat (Struct.width Struct.fmt_h))
        with true
        by (symmetry; apply Z.eqb_eq; cbn [Struct.width Struct.fmt_h]; lia).
      reflexivity.
    + apply FieldFacts.length_decode_ints.
    + unfold len. rewrite FieldFacts.length_decode_ints. lia.
    + unfold numeric_pack, hhhh_pack. cbn [fst snd].
      unfold len at 1. rewrite FieldFacts.length_decode_ints.
      change (Z.of_nat 4 =? 4) with true. cbn [negb].
      rewrite FieldFacts.pack_ints_ok
        by (apply decoded_ints_in_range; [cbn; lia | rewrite Hf; cbn; lia]).
      cbn [bind].
      rewrite FieldFacts.pack_ints_ok
        by (apply decoded_ints_in_range; [cbn; lia | rewrite Hs; cbn; lia]).
      cbn [bind].
      rewrite (packed_decoded_ints Struct.fmt_h 4 (firstn 8 data))
        by (rewrite Hf; reflexivity).
      rewrite (packed_decoded_ints Struct.fmt_h (Z.to_nat n) (skipn 8 data))
        by (rewrite Hs; reflexivity).
      now rewrite firstn_skipn.
  - intros Hbad. unfold numeric_unpack.
    pose proof (len_nonneg data) as Hpos.
    rewrite slice_to_nonneg by lia. change (Z.to_nat 8) with 8%nat.
    unfold hhhh_unpack.
    destruct (Z.ltb_spec (len (firstn 8 data)) 8) as [_ | Hge];
      [reflexivity |].
    cbn [bind].
    assert (H8 : 8 <= len data).
    { unfold len in *. rewrite length_firstn in Hge. lia. }
    destruct Hbad as [? | Hodd]; [lia |].
    unfold Struct.unpack_padded_ints.
    destruct ((len data - 8) / 2 <? 0); [reflexivity |].
    destruct (Z.eqb_spec (len data)
                (Z.of_nat 8 + (len data - 8) / 2
                              * Z.of_nat (Struct.width Struct.fmt_h)))
      as [E | _]; [| reflexivity].
    exfalso. cbn [Struct.width Struct.fmt_h] in E.
    rewrite E in Hodd.
    replace (Z.of_nat 8 + (len data - 8) / 2 * Z.of_nat 2)
      with (0 + ((len data - 8) / 2 + 4) * 2) in Hodd by lia.
    rewrite Z.mod_add in Hodd by lia. discriminate.
Qed.

Lemma numeric_unpack_accepts_witness :
  8 <= len inet_loopback /\ len inet_loopback mod 2 = 0
  /\ exists header digits,
       numeric_unpack inet_loopback = Ok (header, digits)
       /\ List.length header = 4%nat
       /\ len digits = (len inet_loopback - 8) / 2
       /\ numeric_pack (header, digits) = Ok inet_loopback.
Proof.
  assert (H : 8 <= len inet_loopback /\ len inet_loopback mod 2 = 0)
    by (split; [vm_compute; discriminate | reflexivity]).
  split; [exact (proj1 H) |]. split; [exact (proj2 H) |].
  exact (proj1 (numeric_unpack_accepts inet_loopback) H).
Defined.

(** ** Catalog vectors: packing and unpacking *)

(** X14: Neither vector packer ever returns: an element outside the range of the
    format is a [struct.error], and when all elements are packed the call of
    [ljust] with a [str] fill character raises [TypeError]. *)
Theorem vector_pack_never_returns (seq : list Z) :
  oidvector_pack seq
  = Raise (if forallb (Struct.in_range Struct.fmt_L) seq
           then TypeError else StructError)
  /\ int2vector_pack seq
     = Raise (if forallb (Struct.in_range Struct.fmt_h) seq
              then TypeError else StructError).
Proof.
  unfold oidvector_pack, int2vector_pack. split.
  - destruct (forallb (Struct.in_range Struct.fmt_L) seq) eqn:E.
    + now rewrite (FieldFacts.pack_ints_ok _ _ E).
    + now rewrite (FieldFacts.pack_ints_out_of_range _ _ E).
  - destruct (forallb (Struct.in_range Struct.fmt_h) seq) eqn:E.
    + now rewrite (FieldFacts.pack_ints_ok _ _ E).
    + now rewrite (FieldFacts.pack_ints_out_of_range _ _ E).
Qed.

Lemma unpack_vector (f : Struct.int_format) (data : bytes) :
  (0 < Struct.width f)%nat ->
  (len data = 32 * Z.of_nat (Struct.width f) ->
   exists l, Struct.unpack_padded_ints 0 f 32 data = Ok l
             /\ List.length l = 32%nat
             /\ forallb (Struct.in_range f) l = true)
  /\ (len data <> 32 * Z.of_nat (Struct.width f) ->
      Struct.unpack_padded_ints 0 f 32 data = Raise StructError).
Proof.
  intros Hw. unfold Struct.unpack_padded_ints.
  change (32 <? 0) with false. cbn match.
  change (Z.of_nat 0 + 32 * Z.of_nat (Struct.width f))
    with (32 * Z.of_nat (Struct.width f)).
  split; intros Hlen.
  - rewrite Hlen, Z.eqb_refl. cbn [negb].
    eexists. split; [reflexivity |]. split.
    + apply FieldFacts.length_decode_ints.
    + apply decoded_ints_in_range; [assumption |].
      cbn [skipn]. unfold len in Hlen. change (Z.to_nat 32) with 32%nat. lia.
  - destruct (Z.eqb_spec (len data) (32 * Z.of_nat (Struct.width f)));
      [contradiction | reflexivity].
Qed.

(** X15: The vector decoders accept one size only, 128 bytes for an [oidvector]
    and 64 bytes for an [int2vector], and then return exactly 32 integers in
    the range of the element type; any other size is a [struct.error], also
    the size of a vector with fewer elements. *)
Theorem vector_unpack_fixed_size (data : bytes) :
  (len data = 128 ->
   exists l, oidvector_unpack data = Ok l
             /\ List.length l = 32%nat
             /\ Forall (fun v => 0 <= v <= 2 ^ 32 - 1) l)
  /\ (len data <> 128 -> oidvector_unpack data = Raise StructError)
  /\ (len data = 64 ->
      exists l, int2vector_unpack data = Ok l
                /\ List.length l = 32%nat
                /\ Forall (fun v => - 2 ^ 15 <= v <= 2 ^ 15 - 1) l)
  /\ (len data <> 64 -> int2vector_unpack data = Raise StructError).
Proof.
  destruct (unpack_vector Struct.fmt_L data ltac:(cbn; lia)) as [HL1 HL2].
  destruct (unpack_vector Struct.fmt_h data ltac:(cbn; lia)) as [Hh1 Hh2].
  split; [| split; [| split]].
  - intros H. destruct (HL1 H) as (l & E & Hn & Hr).
    exists l. split; [exact E |]. split; [exact Hn |].
    apply Forall_forall. intros v Hv.
    apply StructFacts.in_range_L.
    rewrite forallb_forall in Hr. now apply Hr.
  - exact HL2.
  - intros H. destruct (Hh1 H) as (l & E & Hn & Hr).
    exists l. split; [exact E |]. split; [exact Hn |].
    apply Forall_forall. intros v Hv.
    apply in_range_h.
    rewrite forallb_forall in Hr. now apply Hr.
  - exact Hh2.
Qed.

Lemma vector_unpack_fixed_size_witness :
  len (repeat "000"%byte 128) = 128
  /\ exists l, oidvector_unpack (repeat "000"%byte 128) = Ok l
               /\ List.length l = 32%nat
               /\ Forall (fun v => 0 <= v <= 2 ^ 32 - 1) l.
Proof.
  assert (H : len (repeat "000"%byte 128) = 128) by reflexivity.
  split; [exact H |].
  exact (proj1 (vector_unpack_fixed_size (repeat "000"%byte 128)) H).
Defined.

(** ** Paths: unpacking *)

Lemma length_decode_doubles (n : nat) (b : bytes) :
  List.length (decode_doubles n b) = n.
Proof.
  revert b. induction n as [| n IH]; intros b; cbn; [reflexivity |].
  now rewrite IH.
Qed.

(** X16: [path_unpack] accepts a buffer exactly when it has a count prefix that
    is not negative and eight bytes for every counted double, no more and no
    less; it then returns as many doubles as the prefix says. *)
Theorem path_unpack_accepts (data : bytes) :
  let count := Struct.decode_int Struct.fmt_l (firstn 4 data) in
  (4 <= len data /\ 0 <= count /\ len data = 4 + 8 * count ->
   exists l, path_unpack data = Ok l /\ len l = count)
  /\ (len data < 4 \/ count < 0 \/ len data <> 4 + 8 * count ->
      path_unpack data = Raise StructError).
Proof.
  intros count. pose proof (len_nonneg data) as Hpos.
  unfold path_unpack. rewrite slice_to_nonneg by lia.
  change (Z.to_nat 4) with 4%nat. unfold long_unpack, Struct.unpack_int.
  change (Z.of_nat (Struct.width Struct.fmt_l)) with 4.
  change (Struct.width Struct.fmt_l) with 4%nat.
  assert (Hf : len (firstn 4 data) = Z.min 4 (len data))
    by (unfold len; rewrite length_firstn; lia).
  rewrite Hf. rewrite firstn_firstn. change (Init.Nat.min 4 4) with 4%nat.
  fold count. split.
  - intros (H4 & Hc & Hlen).
    destruct (Z.ltb_spec (Z.min 4 (len data)) 4) as [? | _]; [lia |].
    cbn [bind].
    destruct (Z.ltb_spec count 0) as [? | _]; [lia |].
    rewrite Hlen, Z.eqb_refl. cbn [negb].
    eexists. split; [reflexivity |].
    unfold len. rewrite length_decode_doubles. lia.
  - intros Hbad.
    destruct (Z.ltb_spec (Z.min 4 (len data)) 4) as [_ | H4]; [reflexivity |].
    cbn [bind].
    destruct (Z.ltb_spec count 0) as [_ | Hc]; [reflexivity |].
    destruct (Z.eqb_spec (len data) (4 + 8 * count)) as [E | _];
      [lia | reflexivity].
Qed.

Lemma path_unpack_accepts_witness :
  4 <= len one_point_packed
  /\ len one_point_packed
     = 4 + 8 * Struct.decode_int Struct.fmt_l (firstn 4 one_point_packed)
  /\ exists l, path_unpack one_point_packed = Ok l /\ len l = 2.
Proof.
  assert (H1 : 4 <= len one_point_packed) by (vm_compute; discriminate).
  assert (H2 : 0 <= Struct.decode_int Struct.fmt_l (firstn 4 one_point_packed))
    by (vm_compute; discriminate).
  assert (H3 : len one_point_packed
               = 4 + 8 * Struct.decode_int Struct.fmt_l
                           (firstn 4 one_point_packed)) by reflexivity.
  split; [exact H1 |]. split; [exact H3 |].
  exact (proj1 (path_unpack_accepts one_point_packed) (conj H1 (conj H2 H3))).
Defined.

(** ** Arrays: packing and unpacking *)

Lemma llL_roundtrip (a b c : Z) (rest : bytes) :
  Struct.in_range Struct.fmt_l a = true ->
  Struct.in_range Struct.fmt_l b = true ->
  Struct.in_range Struct.fmt_L c = true ->
  llL_pack (a, b, c)
  = Ok (Struct.be_bytes 4 a ++ Struct.be_bytes 4 b ++ Struct.be_bytes 4 c)
  /\ llL_unpack ((Struct.be_bytes 4 a ++ Struct.be_bytes 4 b
                  ++ Struct.be_bytes 4 c) ++ rest)
     = Ok (a, b, c).
Proof.
  intros Ha Hb Hc. split.
  - unfold llL_pack, Struct.pack_int. now rewrite Ha, Hb, Hc.
  - rewrite llL_unpack_header
      by (rewrite !len_app, !StructFacts.len_be_bytes;
          pose proof (len_nonneg rest); lia).
    rewrite <- !app_assoc.
    rewrite firstn_app_exact by apply StructFacts.length_be_bytes.
    rewrite (skipn_app_exact 4) by apply StructFacts.length_be_bytes.
    rewrite firstn_app_exact by apply StructFacts.length_be_bytes.
    replace (Struct.be_bytes 4 a ++ Struct.be_bytes 4 b
             ++ Struct.be_bytes 4 c ++ rest)
      with ((Struct.be_bytes 4 a ++ Struct.be_bytes 4 b)
              ++ Struct.be_bytes 4 c ++ rest)
      by (now rewrite <- app_assoc).
    rewrite (skipn_app_exact 8)
      by (rewrite length_app, !StructFacts.length_be_bytes; reflexivity).
    rewrite firstn_app_exact by apply StructFacts.length_be_bytes.
    now rewrite (StructFacts.decode_pack_l a Ha),
      (StructFacts.decode_pack_l b Hb), (StructFacts.decode_pack_L c Hc).
Qed.

Lemma map_long_pack_ok (l : list Z) :
  forallb (Struct.in_range Struct.fmt_l) l = true ->
  map_result long_pack l = Ok (map (Struct.be_bytes 4) l).
Proof.
  induction l as [| v l IH]; [reflexivity |].
  cbn [forallb map_result map]. intros H.
  apply andb_true_iff in H as [Hv Hl].
  unfold long_pack at 1, Struct.pack_int. rewrite Hv. cbn [bind].
  now rewrite (IH Hl).
Qed.

Lemma elements_pack_ok (es : list (option bytes)) :
  forallb element_ok es = true ->
  exists chunks,
    elements_pack es = Ok chunks
    /\ List.concat chunks = List.concat (map element_bytes es).
Proof.
  induction es as [| [x |] es IH]; cbn [forallb elements_pack]; intros H.
  - now exists [].
  - apply andb_true_iff in H as [Hx Hes].
    destruct (IH Hes) as (chunks & E & Hc).
    exists (Struct.be_bytes 4 (len x) :: x :: chunks).
    unfold long_pack, Struct.pack_int. cbn [element_ok] in Hx.
    rewrite Hx. cbn [bind]. rewrite E. cbn [bind].
    split; [reflexivity |].
    cbn [List.concat map element_bytes]. now rewrite Hc, <- app_assoc.
  - cbn [andb element_ok] in H.
    destruct (IH H) as (chunks & E & Hc).
    exists (null_sequence :: chunks). rewrite E. cbn [bind].
    split; [reflexivity |].
    cbn [List.concat map element_bytes]. now rewrite Hc.
Qed.

Lemma len_element_bytes (e : option bytes) :
  len (element_bytes e)
  = 4 + match e with None => 0 | Some x => len x end.
Proof.
  destruct e as [x |]; cbn [element_bytes];
    [rewrite len_app, StructFacts.len_be_bytes; lia | reflexivity].
Qed.

(** One resumption of the element generator on an element that
    [elements_pack] wrote. *)
Lemma elements_next_packed (e : option bytes) (pre post : bytes) :
  element_ok e = true ->
  elements_next (pre ++ element_bytes e ++ post) (len pre)
  = Yield e (len pre + len (element_bytes e)).
Proof.
  intros He. unfold elements_next.
  pose proof (len_nonneg pre) as Hpre. pose proof (len_nonneg post) as Hpost.
  assert (Hlt : len pre < len (pre ++ element_bytes e ++ post)).
  { rewrite !len_app, len_element_bytes.
    destruct e as [x |]; [pose proof (len_nonneg x) |]; lia. }
  destruct (Z.ltb_spec (len pre) (len (pre ++ element_bytes e ++ post)))
    as [_ | ?]; [| lia].
  destruct e as [x |]; cbn [element_bytes element_ok] in *.
  - rewrite <- app_assoc.
    rewrite (slice_at pre (Struct.be_bytes 4 (len x)) (x ++ post))
      by (try reflexivity; now rewrite StructFacts.len_be_bytes).
    assert (Hnn : bytes_eqb (Struct.be_bytes 4 (len x)) null_sequence = false).
    { apply bytes_eqb_neq, be4_not_null.
      pose proof (len_nonneg x). apply StructFacts.in_range_l in He. lia. }
    rewrite Hnn, (long_unpack_be4 _ He).
    replace (pre ++ Struct.be_bytes 4 (len x) ++ x ++ post)
      with ((pre ++ Struct.be_bytes 4 (len x)) ++ x ++ post)
      by (now rewrite <- app_assoc).
    rewrite (slice_at (pre ++ Struct.be_bytes 4 (len x)) x post)
      by (rewrite ?len_app, ?StructFacts.len_be_bytes; reflexivity).
    rewrite len_app, StructFacts.len_be_bytes.
    now rewrite Z.add_assoc.
  - rewrite (slice_at pre null_sequence post) by reflexivity.
    reflexivity.
Qed.

(** Consuming the generator over the elements that were packed yields
    them all and ends normally. *)
Lemma elements_consume_packed (es : list (option bytes)) :
  forallb element_ok es = true ->
  forall pre : bytes,
    consume (elements_next (pre ++ List.concat (map element_bytes es)))
      (S (List.length es)) (len pre)
    = (es, Some Finished).
Proof.
  induction es as [| e es IH]; intros H pre.
  - cbn [map List.concat List.length consume].
    now rewrite elements_next_end by (rewrite app_nil_r; lia).
  - cbn [forallb] in H. apply andb_true_iff in H as [He Hes].
    cbn [map List.concat List.length].
    rewrite (consume_yield _ _ _ e (len pre + len (element_bytes e)))
      by (now apply elements_next_packed).
    replace (pre ++ element_bytes e ++ List.concat (map element_bytes es))
      with ((pre ++ element_bytes e) ++ List.concat (map element_bytes es))
      by (now rewrite <- app_assoc).
    rewrite <- len_app. now rewrite (IH Hes (pre ++ element_bytes e)).
Qed.

Lemma decode_packed_prefix (f : Struct.int_format) (l : list Z) (rest : bytes) :
  (0 < Struct.width f)%nat ->
  forallb (Struct.in_range f) l = true ->
  forall k : nat,
    (k <= List.length l)%nat ->
    Struct.decode_ints f k
      (List.concat (map (Struct.be_bytes (Struct.width f)) l) ++ rest)
    = firstn k l.
Proof.
  intros Hw. induction l as [| v l IH]; intros H k Hk.
  - cbn in Hk. now replace k with 0%nat by lia.
  - destruct k as [| k]; [reflexivity |].
    cbn [forallb] in H. apply andb_true_iff in H as [Hv Hl].
    cbn [map List.concat Struct.decode_ints firstn].
    rewrite <- app_assoc.
    rewrite firstn_app_exact, skipn_app_exact
      by apply StructFacts.length_be_bytes.
    rewrite (FieldFacts.decode_pack f v Hw Hv).
    now rewrite (IH Hl k) by (cbn in Hk; lia).
Qed.

(** What [array_unpack] makes of a packed array, for any number of bounds. *)
Lemma array_unpack_packed (flags typid : Z) (dlb : list Z)
    (es : list (option bytes)) :
  Struct.in_range Struct.fmt_l flags = true ->
  Struct.in_range Struct.fmt_L typid = true ->
  forallb (Struct.in_range Struct.fmt_l) dlb = true ->
  len dlb / 2 <= 2 ^ 31 - 1 ->
  forallb element_ok es = true ->
  let header := Struct.be_bytes 4 (len dlb / 2) ++ Struct.be_bytes 4 flags
                ++ Struct.be_bytes 4 typid in
  let packed := header ++ List.concat (map (Struct.be_bytes 4) dlb)
                ++ List.concat (map element_bytes es) in
  array_pack (flags, typid, dlb, es) = Ok packed
  /\ array_unpack packed
     = Ok (flags, typid, firstn (Z.to_nat (2 * (len dlb / 2))) dlb,
           elements_unpack packed (4 * 2 * (len dlb / 2) + 12)).
Proof.
  intros Hflags Htypid Hdlb Hndim Hes header packed.
  pose proof (len_nonneg dlb) as Hpos.
  assert (Hn0 : 0 <= len dlb / 2) by (apply Z.div_pos; lia).
  assert (Hn2 : 2 * (len dlb / 2) <= len dlb)
    by (apply Z.mul_div_le; lia).
  assert (Hnd : Struct.in_range Struct.fmt_l (len dlb / 2) = true)
    by (apply StructFacts.in_range_l; lia).
  destruct (llL_roundtrip (len dlb / 2) flags typid
              (List.concat (map (Struct.be_bytes 4) dlb)
               ++ List.concat (map element_bytes es)) Hnd Hflags Htypid)
    as [Hpack Hunpack].
  fold header in Hpack, Hunpack. fold packed in Hunpack.
  destruct (elements_pack_ok es Hes) as (chunks & Echunks & Hchunks).
  split.
  - unfold array_pack. rewrite Hpack. cbn [bind].
    rewrite (map_long_pack_ok dlb Hdlb). cbn [bind].
    rewrite Echunks. cbn [bind]. now rewrite Hchunks.
  - unfold array_unpack, array_unpack_with. rewrite Hunpack. cbn [bind].
    destruct (Z.ltb_spec (len dlb / 2) 0) as [? | _]; [lia |].
    unfold Struct.unpack_from_ints.
    destruct (Z.ltb_spec (2 * (len dlb / 2)) 0) as [? | _]; [lia |].
    assert (Hlen : len packed
                   = 12 + 4 * len dlb + len (List.concat (map element_bytes es))).
    { unfold packed, header.
      rewrite !len_app, !StructFacts.len_be_bytes.
      rewrite (FieldFacts.len_packed_ints 4 dlb). lia. }
    pose proof (len_nonneg (List.concat (map element_bytes es))) as Hel.
    destruct (Z.ltb_spec (len packed - 12)
                (2 * (len dlb / 2) * Z.of_nat (Struct.width Struct.fmt_l)))
      as [Hshort | _].
    { cbn [Struct.width Struct.fmt_l] in Hshort. lia. }
    cbn [bind]. change (Z.to_nat 12) with 12%nat.
    unfold packed at 1.
    rewrite (skipn_app_exact 12)
      by (unfold header; rewrite !length_app, !StructFacts.length_be_bytes;
          reflexivity).
    rewrite (decode_packed_prefix Struct.fmt_l dlb _ ltac:(cbn; lia) Hdlb)
      by (unfold len in *; lia).
    reflexivity.
Qed.

(** X17: [array_unpack] reads back what [array_pack] wrote when the bounds come
    in pairs: the flags, the element type and the bounds are returned, and
    consuming the element generator yields the elements, NULLs included, in
    order, and ends normally. *)
Theorem array_roundtrip (flags typid : Z) (dlb : list Z)
    (es : list (option bytes)) :
  - 2 ^ 31 <= flags <= 2 ^ 31 - 1 ->
  0 <= typid <= 2 ^ 32 - 1 ->
  forallb (Struct.in_range Struct.fmt_l) dlb = true ->
  len dlb mod 2 = 0 ->
  len dlb / 2 <= 2 ^ 31 - 1 ->
  forallb element_ok es = true ->
  exists (packed : bytes) (g : elements_iter),
    array_pack (flags, typid, dlb, es) = Ok packed
    /\ array_unpack packed = Ok (flags, typid, dlb, g)
    /\ elements_list (S (List.length es)) g = (es, Some Finished).
Proof.
  intros Hflags Htypid Hdlb Heven Hndim Hes.
  apply StructFacts.in_range_l in Hflags.
  apply StructFacts.in_range_L in Htypid.
  destruct (array_unpack_packed flags typid dlb es
              Hflags Htypid Hdlb Hndim Hes) as [Hpack Hunpack].
  cbv zeta in Hpack, Hunpack.
  assert (H2 : 2 * (len dlb / 2) = len dlb).
  { pose proof (Z.div_mod (len dlb) 2 ltac:(lia)). lia. }
  assert (Hf : firstn (Z.to_nat (2 * (len dlb / 2))) dlb = dlb).
  { rewrite H2. unfold len. rewrite Nat2Z.id. apply firstn_all. }
  rewrite Hf in Hunpack.
  eexists. eexists. split; [exact Hpack |]. split; [exact Hunpack |].
  unfold elements_list, elements_unpack. cbn [iter_data iter_offset].
  set (header := Struct.be_bytes 4 (len dlb / 2) ++ Struct.be_bytes 4 flags
                 ++ Struct.be_bytes 4 typid).
  set (bounds := List.concat (map (Struct.be_bytes 4) dlb)).
  replace (4 * 2 * (len dlb / 2) + 12) with (len (header ++ bounds)).
  2:{ unfold header, bounds. rewrite !len_app, !StructFacts.len_be_bytes.
      rewrite (FieldFacts.len_packed_ints 4 dlb). lia. }
  rewrite app_assoc.
  now apply elements_consume_packed.
Qed.

Lemma array_roundtrip_witness :
  exists (packed : bytes) (g : elements_iter),
    array_pack (0, 23, [1; 2], [Some ["007"]%byte; None; Some []]) = Ok packed
    /\ array_unpack packed = Ok (0, 23, [1; 2], g)
    /\ elements_list 4 g = ([Some ["007"]%byte; None; Some []], Some Finished).
Proof.
  apply (array_roundtrip 0 23 [1; 2] [Some ["007"]%byte; None; Some []]);
    try reflexivity; try lia; vm_compute; discriminate.
Defined.

(** X18: [array_pack] writes [len(dlb) // 2] as the number of dimensions and all
    of the bounds: with an odd number of bounds, [array_unpack] returns
    all but the last one, and the element generator starts on the last
    bound instead of the first element. *)
Theorem array_pack_odd_bounds (flags typid : Z) (dlb : list Z) (last : Z)
    (es : list (option bytes)) :
  - 2 ^ 31 <= flags <= 2 ^ 31 - 1 ->
  0 <= typid <= 2 ^ 32 - 1 ->
  forallb (Struct.in_range Struct.fmt_l) (dlb ++ [last]) = true ->
  len dlb mod 2 = 0 ->
  len dlb / 2 <= 2 ^ 31 - 1 ->
  forallb element_ok es = true ->
  exists packed : bytes,
    array_pack (flags, typid, dlb ++ [last], es) = Ok packed
    /\ array_unpack packed
       = Ok (flags, typid, dlb, elements_unpack packed (12 + 4 * len dlb))
    /\ slice packed (12 + 4 * len dlb) (12 + 4 * len dlb + 4)
       = Struct.be_bytes 4 last.
Proof.
  intros Hflags Htypid Hdlb Heven Hndim Hes.
  apply StructFacts.in_range_l in Hflags.
  apply StructFacts.in_range_L in Htypid.
  pose proof (len_nonneg dlb) as Hpos.
  assert (Hdiv : len (dlb ++ [last]) / 2 = len dlb / 2).
  { rewrite len_app. change (len [last]) with 1.
    pose proof (Z.div_mod (len dlb) 2 ltac:(lia)) as E. rewrite Heven in E.
    rewrite E at 1.
    replace (2 * (len dlb / 2) + 0 + 1) with (1 + (len dlb / 2) * 2) by lia.
    rewrite Z.div_add by lia. reflexivity. }
  assert (H2 : 2 * (len dlb / 2) = len dlb).
  { pose proof (Z.div_mod (len dlb) 2 ltac:(lia)). lia. }
  destruct (array_unpack_packed flags typid (dlb ++ [last]) es
              Hflags Htypid Hdlb ltac:(lia) Hes) as [Hpack Hunpack].
  cbv zeta in Hpack, Hunpack.
  rewrite Hdiv in Hpack, Hunpack.
  assert (Hf : firstn (Z.to_nat (2 * (len dlb / 2))) (dlb ++ [last]) = dlb).
  { rewrite H2. unfold len. rewrite Nat2Z.id.
    now apply firstn_app_exact. }
  rewrite Hf in Hunpack.
  replace (4 * 2 * (len dlb / 2) + 12) with (12 + 4 * len dlb) in Hunpack
    by lia.
  eexists. split; [exact Hpack |]. split; [exact Hunpack |].
  rewrite map_app, concat_app. cbn [map List.concat]. rewrite app_nil_r.
  set (header := Struct.be_bytes 4 (len dlb / 2) ++ Struct.be_bytes 4 flags
                 ++ Struct.be_bytes 4 typid).
  set (bounds := List.concat (map (Struct.be_bytes 4) dlb)).
  replace (header ++ (bounds ++ Struct.be_bytes 4 last)
           ++ List.concat (map element_bytes es))
    with ((header ++ bounds) ++ Struct.be_bytes 4 last
          ++ List.concat (map element_bytes es))
    by (now rewrite <- !app_assoc).
  apply slice_at.
  - unfold header, bounds. rewrite !len_app, !StructFacts.len_be_bytes.
    rewrite (FieldFacts.len_packed_ints 4 dlb). lia.
  - now rewrite StructFacts.len_be_bytes.
Qed.

Lemma array_pack_odd_bounds_witness :
  exists packed : bytes,
    array_pack (0, 23, [1; 2] ++ [5], []) = Ok packed
    /\ array_unpack packed
       = Ok (0, 23, [1; 2], elements_unpack packed (12 + 4 * len [1; 2]))
    /\ slice packed (12 + 4 * len [1; 2]) (12 + 4 * len [1; 2] + 4)
       = Struct.be_bytes 4 5.
Proof.
  apply (array_pack_odd_bounds 0 23 [1; 2] 5 []);
    try reflexivity; try lia; vm_compute; discriminate.
Defined.

(** X19: [array_unpack] on any buffer: a buffer shorter than the header, or too
    short for the bounds that a non-negative number of dimensions announces,
    is a [struct.error]; otherwise two bounds are returned for every
    dimension, and the element generator starts after them. *)
Theorem array_unpack_accepts (data : bytes) :
  let ndim := Struct.decode_int Struct.fmt_l (firstn 4 data) in
  (len data < 12 -> array_unpack data = Raise StructError)
  /\ (12 <= len data -> 0 <= ndim -> len data < 12 + 8 * ndim ->
      array_unpack data = Raise StructError)
  /\ (12 <= len data -> 0 <= ndim -> 12 + 8 * ndim <= len data ->
      exists dlb : list Z,
        array_unpack data
        = Ok (Struct.decode_int Struct.fmt_l (firstn 4 (skipn 4 data)),
              Struct.decode_int Struct.fmt_L (firstn 4 (skipn 8 data)),
              dlb, elements_unpack data (4 * 2 * ndim + 12))
        /\ len dlb = 2 * ndim).
Proof.
  intros ndim. unfold array_unpack, array_unpack_with.
  split; [| split].
  - intros Hshort. unfold llL_unpack.
    destruct (Z.ltb_spec (len data) 12); [reflexivity | lia].
  - intros H12 Hn Hshort. rewrite llL_unpack_header by assumption.
    cbn [bind]. fold ndim.
    destruct (Z.ltb_spec ndim 0) as [? | _]; [lia |].
    unfold Struct.unpack_from_ints.
    destruct (Z.ltb_spec (2 * ndim) 0) as [? | _]; [lia |].
    destruct (Z.ltb_spec (len data - 12)
                (2 * ndim * Z.of_nat (Struct.width Struct.fmt_l)))
      as [_ | Hge]; [reflexivity |].
    cbn [Struct.width Struct.fmt_l] in Hge. lia.
  - intros H12 Hn Hlong. rewrite llL_unpack_header by assumption.
    cbn [bind]. fold ndim.
    destruct (Z.ltb_spec ndim 0) as [? | _]; [lia |].
    unfold Struct.unpack_from_ints.
    destruct (Z.ltb_spec (2 * ndim) 0) as [? | _]; [lia |].
    destruct (Z.ltb_spec (len data - 12)
                (2 * ndim * Z.of_nat (Struct.width Struct.fmt_l)))
      as [Hlt | _].
    { cbn [Struct.width Struct.fmt_l] in Hlt. lia. }
    cbn [bind]. eexists. split; [reflexivity |].
    unfold len. rewrite FieldFacts.length_decode_ints. lia.
Qed.

Lemma array_unpack_accepts_witness :
  len array_header_0 < 12 + 8 * 1
  /\ array_unpack (["000"; "000"; "000"; "001"]%byte ++ skipn 4 array_header_0)
     = Raise StructError.
Proof.
  split; [vm_compute; reflexivity |].
  apply (proj1 (proj2 (array_unpack_accepts
                         (["000"; "000"; "000"; "001"]%byte
                          ++ skipn 4 array_header_0))));
    vm_compute; (discriminate || reflexivity).
Defined.

(** ** Records: what is accepted *)

Lemma firstn_plus {A : Type} (m k : nat) (l : list A) :
  firstn (m + k) l = firstn m l ++ firstn k (skipn m l).
Proof.
  revert l. induction m as [| m IH]; intros l; [reflexivity |].
  destruct l as [| x l]; cbn [Nat.add firstn skipn app].
  - now rewrite firstn_nil.
  - now rewrite IH.
Qed.

(** Adjacent slices join. *)
Lemma slice_adjacent {A : Type} (l : list A) (a b c : Z) :
  0 <= a <= b -> b <= c -> slice l a b ++ slice l b c = slice l a c.
Proof.
  intros Hab Hbc. rewrite !slice_nonneg by lia.
  replace (Z.to_nat (c - a)) with (Z.to_nat (b - a) + Z.to_nat (c - b))%nat
    by lia.
  rewrite firstn_plus, skipn_skipn.
  now replace (Z.to_nat (b - a) + Z.to_nat a)%nat with (Z.to_nat b) by lia.
Qed.

Lemma slice_all {A : Type} (l : list A) : slice l 0 (len l) = l.
Proof.
  rewrite slice_nonneg by (pose proof (len_nonneg l); lia).
  unfold len. rewrite Z.sub_0_r, Nat2Z.id. apply firstn_all.
Qed.

(** A 4-byte field that was decoded: the slice has four bytes, the value
    is in range and encoding it gives the slice. *)
Lemma unpacked_field (f : Struct.int_format) (data : bytes) (off v : Z) :
  Struct.width f = 4%nat ->
  0 <= off ->
  Struct.unpack_int f (slice data off (off + 4)) = Ok v ->
  off + 4 <= len data
  /\ Struct.in_range f v = true
  /\ Struct.be_bytes 4 v = slice data off (off + 4).
Proof.
  intros Hw Hoff H.
  pose proof (unpack_int_ok_len _ _ _ H) as Hlen.
  rewrite Hw in Hlen. rewrite len_slice_nonneg in Hlen by lia.
  assert (Hl : List.length (slice data off (off + 4)) = Struct.width f).
  { pose proof (len_slice_nonneg data off 4 Hoff ltac:(lia)) as E.
    unfold len in E at 1. rewrite Hw. lia. }
  rewrite (StructFacts.unpack_int_exact f _ Hl) in H. injection H as <-.
  split; [lia |]. split.
  - apply FieldFacts.decode_in_range; [lia | exact Hl].
  - rewrite <- Hw. now apply FieldFacts.be_bytes_decode.
Qed.

(** A field that the loop accepted is a packable field, and the bytes it
    was read from are its packing. *)
Lemma record_field_sound (data : bytes) (off : Z) (f : field) (off' : Z) :
  0 <= off ->
  record_field data off = Ok (f, off') ->
  field_ok f = true
  /\ off <= off' <= len data
  /\ slice data off off' = field_bytes f.
Proof.
  intros Hoff. unfold record_field.
  destruct (oid_unpack (slice data off (off + 4))) as [typid | e] eqn:Et;
    cbn [bind]; [| discriminate].
  destruct (unpacked_field Struct.fmt_L data off typid eq_refl Hoff Et)
    as (Ht4 & Htr & Htb).
  destruct (bytes_eqb (slice data (off + 4) (off + 4 + 4)) null_sequence)
    eqn:Enull.
  - intros [= <- <-]. apply bytes_eqb_eq in Enull.
    assert (H8 : off + 4 + 4 <= len data).
    { pose proof (f_equal len Enull) as E.
      rewrite len_slice_nonneg in E by lia. change (len null_sequence) with 4 in E.
      lia. }
    unfold field_ok, field_bytes. cbn [fst snd].
    rewrite Htr, Htb, <- Enull.
    split; [reflexivity |]. split; [lia |].
    symmetry. apply slice_adjacent; lia.
  - destruct (long_unpack (slice data (off + 4) (off + 4 + 4)))
      as [size | e] eqn:Es; cbn [bind]; [| discriminate].
    destruct (unpacked_field Struct.fmt_l data (off + 4) size eq_refl
                ltac:(lia) Es) as (Hs4 & Hsr & Hsb).
    set (att := slice data (off + 4 + 4) (off + 4 + 4 + size)).
    destruct (Z.ltb_spec size (-1)); cbn [orb]; [discriminate |].
    destruct (Z.eqb_spec (len att) size) as [Hatt | _]; cbn [negb];
      [| discriminate].
    intros [= <- <-].
    assert (Hpos : 0 <= size) by (pose proof (len_nonneg att); lia).
    assert (Hend : off + 4 + 4 + size <= len data).
    { pose proof Hatt as E. unfold att in E.
      rewrite len_slice_nonneg in E by lia. lia. }
    unfold field_ok, field_bytes. cbn [fst snd].
    rewrite Hatt, Htr, Hsr, Htb, Hsb.
    split; [reflexivity |]. split; [lia |].
    unfold att. rewrite !slice_adjacent by lia. reflexivity.
Qed.

Lemma record_loop_sound (data : bytes) (k : nat) :
  forall (off : Z) (fs : list field) (off' : Z),
    0 <= off <= len data ->
    record_loop data k off = (fs, Ok off') ->
    forallb field_ok fs = true
    /\ List.length fs = k
    /\ off <= off' <= len data
    /\ slice data off off' = List.concat (map field_bytes fs).
Proof.
  induction k as [| k IH]; intros off fs off' Hoff; cbn [record_loop].
  - intros [= <- <-]. repeat split; try lia.
    rewrite slice_nonneg by lia. now rewrite Z.sub_diag.
  - destruct (record_field data off) as [[f o] | e] eqn:Ef; [| discriminate].
    destruct (record_loop data k o) as [fs' r] eqn:El.
    intros [= <- ->].
    destruct (record_field_sound data off f o ltac:(lia) Ef)
      as (Hf & Ho & Hb).
    destruct (IH o fs' off' ltac:(lia) El) as (Hfs & Hlen & Ho' & Hbs).
    cbn [forallb List.length map List.concat].
    rewrite Hf, Hfs, Hlen, <- Hb, <- Hbs.
    repeat split; try lia.
    symmetry. apply slice_adjacent; lia.
Qed.

(** X20: Every buffer that [record_unpack] consumes without error, with a count
    that is not negative, is exactly what [record_pack] writes for the
    fields it yielded: the count is the number of fields, and no accepted
    buffer has another spelling. *)
Theorem record_unpack_then_pack (data : bytes) (fs : list field) :
  record_unpack data = (fs, Finished) ->
  0 <= Struct.decode_int Struct.fmt_l (firstn 4 data) ->
  record_pack fs = Ok data
  /\ len fs = Struct.decode_int Struct.fmt_l (firstn 4 data).
Proof.
  unfold record_unpack.
  destruct (long_unpack (slice data 0 4)) as [columns | e] eqn:Ec;
    [| discriminate].
  destruct (unpacked_field Struct.fmt_l data 0 columns eq_refl ltac:(lia) Ec)
    as (H4 & Hcr & Hcb).
  change (0 + 4) with 4 in *.
  assert (Hcols : Struct.decode_int Struct.fmt_l (firstn 4 data) = columns).
  { rewrite slice_nonneg in Hcb by lia.
    change (Z.to_nat (4 - 0)) with 4%nat in Hcb. cbn [Z.to_nat skipn] in Hcb.
    rewrite <- Hcb. now apply StructFacts.decode_pack_l. }
  rewrite Hcols.
  destruct (record_loop data (Z.to_nat columns) 4) as [fs' r] eqn:El.
  destruct r as [off | e]; [| discriminate].
  destruct (Z.eqb_spec (len data - off) 0) as [Hend | _]; cbn [negb];
    [| discriminate].
  intros [= <-] Hpos.
  destruct (record_loop_sound data _ 4 fs' off ltac:(lia) El)
    as (Hfs & Hlen & Hoff & Hbs).
  assert (Hn : len fs' = columns) by (unfold len; lia).
  apply StructFacts.in_range_l in Hcr.
  split; [| exact Hn].
  rewrite record_pack_ok by (assumption || lia).
  rewrite Hn, Hcb, <- Hbs.
  replace off with (len data) by lia.
  rewrite slice_adjacent by lia. now rewrite slice_all.
Qed.

Lemma record_unpack_then_pack_witness :
  record_unpack (["000"; "000"; "000"; "001"; "000"; "000"; "000"; "023";
                  "255"; "255"; "255"; "255"]%byte)
  = ([(23, None)], Finished)
  /\ record_pack [(23, None)]
     = Ok ["000"; "000"; "000"; "001"; "000"; "000"; "000"; "023";
           "255"; "255"; "255"; "255"]%byte.
Proof.
  split; [reflexivity |].
  apply (record_unpack_then_pack _ [(23, None)]);
    [reflexivity | vm_compute; discriminate].
Defined.

(** X21: A count that is not positive is not refused: on a buffer of four bytes
    with such a count, [record_unpack] yields nothing and ends normally; a
    negative count is thus accepted although [record_pack] never writes
    one. *)
Theorem record_unpack_count_not_positive (data : bytes) :
  len data = 4 ->
  Struct.decode_int Struct.fmt_l data <= 0 ->
  record_unpack data = ([], Finished)
  /\ (Struct.decode_int Struct.fmt_l data < 0 ->
      forall fs : list field, record_pack fs <> Ok data).
Proof.
  intros Hlen Hcount.
  assert (Hl : List.length data = 4%nat) by (unfold len in Hlen; lia).
  assert (Hs : slice data 0 4 = data).
  { rewrite <- Hlen. apply slice_all. }
  split.
  - unfold record_unpack. rewrite Hs. unfold long_unpack.
    rewrite (StructFacts.unpack_int_exact Struct.fmt_l data Hl).
    replace (Z.to_nat (Struct.decode_int Struct.fmt_l data)) with 0%nat by lia.
    cbn [record_loop]. rewrite Hlen. reflexivity.
  - intros Hneg fs Hpack.
    destruct (Z.le_gt_cases (len fs) (2 ^ 31 - 1)) as [Hfit | Hbig].
    + unfold record_pack, long_pack, Struct.pack_int in Hpack.
      rewrite StructFacts.in_range_l_len in Hpack by assumption.
      cbn [bind] in Hpack.
      destruct (map_result pack_field fs) as [bs | e]; cbn [bind] in Hpack;
        [| discriminate].
      assert (Hd : Struct.be_bytes 4 (len fs) ++ List.concat bs = data).
      { apply (f_equal (fun r => match r with Ok b => b | Raise _ => [] end))
          in Hpack. exact Hpack. }
      assert (Hhead : firstn 4 data = Struct.be_bytes 4 (len fs)).
      { rewrite <- Hd.
        now apply firstn_app_exact, StructFacts.length_be_bytes. }
      rewrite (firstn_exact 4 data Hl) in Hhead. rewrite Hhead in Hneg.
      rewrite StructFacts.decode_pack_l in Hneg
        by (now apply StructFacts.in_range_l_len).
      pose proof (len_nonneg fs). lia.
    + rewrite record_pack_count_out_of_range in Hpack by lia. discriminate.
Qed.

Lemma record_unpack_count_not_positive_witness :
  len ["255"; "255"; "255"; "254"]%byte = 4
  /\ Struct.decode_int Struct.fmt_l ["255"; "255"; "255"; "254"]%byte = -2
  /\ record_unpack ["255"; "255"; "255"; "254"]%byte = ([], Finished).
Proof.
  split; [reflexivity |]. split; [reflexivity |].
  apply (record_unpack_count_not_positive ["255"; "255"; "255"; "254"]%byte);
    [reflexivity | vm_compute; discriminate].
Defined.

Lemma pack_field_not_ok (f : field) :
  field_ok f = false -> pack_field f = Raise StructError.
Proof.
  destruct f as [t [y |]]; unfold field_ok, pack_field;
    cbn [fst snd]; unfold oid_pack, ulong_pack, long_pack, Struct.pack_int;
    intros H.
  - destruct (Struct.in_range Struct.fmt_L t); cbn [andb bind] in *;
      [now rewrite H | reflexivity].
  - rewrite andb_true_r in H. now rewrite H.
Qed.

Lemma map_pack_field_not_ok (s : list field) :
  forallb field_ok s = false ->
  map_result pack_field s = Raise StructError.
Proof.
  induction s as [| f s IH]; [discriminate |].
  cbn [forallb map_result]. intros H.
  destruct (field_ok f) eqn:Ef; cbn [andb] in H.
  - rewrite (pack_field_ok f Ef). cbn [bind]. now rewrite (IH H).
  - now rewrite (pack_field_not_ok f Ef).
Qed.

(** X22: [record_pack] returns exactly when the number of fields fits the signed
    32-bit count, every type is an unsigned 32-bit integer and every payload
    length fits the signed 32-bit prefix; in every other case it raises
    [struct.error], and nothing is returned. *)
Theorem record_pack_domain (s : list field) :
  (len s <= 2 ^ 31 - 1 /\ forallb field_ok s = true ->
   record_pack s
   = Ok (Struct.be_bytes 4 (len s) ++ List.concat (map field_bytes s)))
  /\ (2 ^ 31 <= len s \/ forallb field_ok s = false ->
      record_pack s = Raise StructError).
Proof.
  split.
  - intros [Hlen Hs]. now apply record_pack_ok.
  - intros Hbad.
    destruct (Z.le_gt_cases (2 ^ 31) (len s)) as [Hbig | Hfit].
    + now apply record_pack_count_out_of_range.
    + destruct Hbad as [? | Hs]; [lia |].
      unfold record_pack, long_pack, Struct.pack_int.
      rewrite StructFacts.in_range_l_len by lia. cbn [bind].
      now rewrite (map_pack_field_not_ok s Hs).
Qed.

Lemma record_pack_domain_witness :
  forallb field_ok [(-1, None)] = false
  /\ record_pack [(-1, None)] = Raise StructError.
Proof.
  split; [reflexivity |].
  apply (proj2 (record_pack_domain [(-1, None)])). right. reflexivity.
Defined.

(** ** Buffers that end inside a prefix *)

(** X23: When one to three bytes are left where the element generator expects a
    length prefix, the iteration ends with a [struct.error]: a truncated
    prefix is detected, unlike a truncated payload. *)
Theorem elements_truncated_prefix (data : bytes) (offset : Z) (fuel : nat) :
  0 <= offset ->
  offset < len data < offset + 4 ->
  elements_list (S fuel) (elements_unpack data offset)
  = ([], Some (Raised StructError)).
Proof.
  intros Hoff Hlen.
  unfold elements_list, elements_unpack. cbn [iter_data iter_offset consume].
  unfold elements_next.
  destruct (Z.ltb_spec offset (len data)) as [_ | ?]; [| lia].
  assert (Hs : len (slice data offset (offset + 4)) = len data - offset)
    by (rewrite len_slice_nonneg by lia; lia).
  destruct (bytes_eqb (slice data offset (offset + 4)) null_sequence) eqn:E.
  - apply bytes_eqb_eq in E. rewrite E in Hs.
    change (len null_sequence) with 4 in Hs. lia.
  - unfold long_unpack.
    rewrite StructFacts.unpack_int_short; [reflexivity |].
    unfold len in Hs. cbn [Struct.width Struct.fmt_l]. unfold len in Hlen. lia.
Qed.

Lemma elements_truncated_prefix_witness :
  elements_list 1
    (elements_unpack (array_header_0 ++ ["000"; "000"]%byte) 12)
  = ([], Some (Raised StructError)).
Proof.
  apply elements_truncated_prefix; [lia | vm_compute; split; reflexivity].
Defined.

(** X24: When the buffer of a record ends, or has fewer than four bytes left,
    while the count announces more fields, the consumption of
    [record_unpack] yields the fields read so far and ends with a
    [struct.error], not with one of the module's own errors. *)
Theorem record_unpack_missing_field (data : bytes) (columns : Z)
    (k : nat) (fs : list field) (off : Z) :
  long_unpack (slice data 0 4) = Ok columns ->
  Z.of_nat k < columns ->
  record_loop data k 4 = (fs, Ok off) ->
  len data - off < 4 ->
  record_unpack data = (fs, Raised StructError).
Proof.
  intros Hcols Hk Hloop Hend.
  pose proof (record_loop_advances _ _ _ _ _ Hloop) as Hoff.
  assert (Hfield : record_field data off = Raise StructError).
  { unfold record_field, oid_unpack, ulong_unpack.
    rewrite StructFacts.unpack_int_short; [reflexivity |].
    pose proof (len_slice_nonneg data off 4 ltac:(lia) ltac:(lia)) as E.
    unfold len in E at 1. cbn [Struct.width Struct.fmt_L]. lia. }
  unfold record_unpack. rewrite Hcols.
  replace (Z.to_nat columns) with (k + S (Z.to_nat columns - k - 1))%nat
    by lia.
  rewrite record_loop_app, Hloop. cbn [record_loop].
  rewrite Hfield. cbn [fst snd]. now rewrite app_nil_r.
Qed.

Lemma record_unpack_missing_field_witness :
  record_unpack ["000"; "000"; "000"; "002"; "000"; "000"; "000"; "023";
                 "255"; "255"; "255"; "255"]%byte
  = ([(23, None)], Raised StructError).
Proof.
  apply (record_unpack_missing_field _ 2 1 [(23, None)] 12);
    try reflexivity; lia.
Defined.

(** ** Intervals on 64-bit integers: what is accepted *)

Lemma split_16 (data : bytes) :
  List.length data = 16%nat ->
  firstn 8 data ++ firstn 4 (skipn 8 data) ++ firstn 4 (skipn 12 data) = data.
Proof.
  intros Hlen.
  rewrite (firstn_exact 4 (skipn 12 data))
    by (rewrite length_skipn; lia).
  change 12%nat with (4 + 8)%nat. rewrite <- skipn_skipn.
  now rewrite !firstn_skipn.
Qed.

(** X11: Every buffer of sixteen bytes is accepted by [interval64_unpack]; the
    interval returned has its microseconds within one second, and packing
    it gives the buffer back. *)
Theorem interval64_unpack_then_pack (data : bytes) :
  len data = 16 ->
  exists month day seconds microseconds : Z,
    interval64_unpack data = Ok (month, day, (seconds, microseconds))
    /\ 0 <= microseconds < 1000000
    /\ interval64_pack (month, day, (seconds, microseconds)) = Ok data.
Proof.
  intros Hlen.
  assert (Hl : List.length data = 16%nat) by (unfold len in Hlen; lia).
  set (tim := Struct.decode_int Struct.fmt_q (firstn 8 data)).
  set (day := Struct.decode_int Struct.fmt_l (firstn 4 (skipn 8 data))).
  set (month := Struct.decode_int Struct.fmt_l (firstn 4 (skipn 12 data))).
  exists month, day, (fst (mktimetuple64 tim)), (snd (mktimetuple64 tim)).
  destruct (mktime64_mktimetuple64 tim) as (Hjoin & Hus).
  split; [| split].
  - unfold interval64_unpack, qll_unpack. rewrite Hlen.
    change (16 <? 16) with false. cbn match. cbn [bind].
    fold tim day month. now destruct (mktimetuple64 tim).
  - exact Hus.
  - unfold interval64_pack.
    replace (mktime64 (fst (mktimetuple64 tim), snd (mktimetuple64 tim)))
      with tim by (now destruct (mktimetuple64 tim)).
    unfold qll_pack, Struct.pack_int.
    assert (H8 : List.length (firstn 8 data) = 8%nat)
      by (rewrite length_firstn; lia).
    assert (H4a : List.length (firstn 4 (skipn 8 data)) = 4%nat)
      by (rewrite length_firstn, length_skipn; lia).
    assert (H4b : List.length (firstn 4 (skipn 12 data)) = 4%nat)
      by (rewrite length_firstn, length_skipn; lia).
    unfold tim, day, month.
    rewrite (FieldFacts.decode_in_range Struct.fmt_q _ ltac:(cbn; lia) H8).
    rewrite (FieldFacts.decode_in_range Struct.fmt_l _ ltac:(cbn; lia) H4a).
    rewrite (FieldFacts.decode_in_range Struct.fmt_l _ ltac:(cbn; lia) H4b).
    cbn [bind].
    rewrite (FieldFacts.be_bytes_decode Struct.fmt_q _ H8).
    rewrite (FieldFacts.be_bytes_decode Struct.fmt_l _ H4a).
    rewrite (FieldFacts.be_bytes_decode Struct.fmt_l _ H4b).
    now rewrite split_16.
Qed.

Lemma interval64_unpack_then_pack_witness :
  len (repeat "255"%byte 16) = 16
  /\ exists month day seconds microseconds : Z,
       interval64_unpack (repeat "255"%byte 16)
       = Ok (month, day, (seconds, microseconds))
       /\ 0 <= microseconds < 1000000
       /\ interval64_pack (month, day, (seconds, microseconds))
          = Ok (repeat "255"%byte 16).
Proof.
  assert (H : len (repeat "255"%byte 16) = 16) by reflexivity.
  split; [exact H | exact (interval64_unpack_then_pack _ H)].
Defined.
